(** * veg_survey: the survey registry and the summary sheet of [main.py]

    A shallow embedding of [main.py]: the [Species] and [Survey] classes with
    the class-level registry ([Survey.all_surveys], [Survey.survey_dates]),
    the phenology numbering of [Survey._calc_num_phenologies], the writers
    of the "Summary" sheet and the derivation of the output path.

    Python values are modelled as follows.
    - [None], [int], [float] and [str] cell values: the type [value]; a
      float is carried by its bit pattern, the program never computes with
      one.
    - A [datetime] is its position on the time line, a [Z]; the program only
      compares dates with [<], [>] and [==].
    - The objects held by [Survey.all_surveys] are mutated in place through
      references kept in other lists; a reference is the position of the
      object in [all_surveys], the list being the store.
    - An openpyxl worksheet is a finite map from (row, column) to the value
      of the cell; a cell that is absent or holds [None] is blank. *)

From Stdlib Require Import ZArith Ascii String.
From stdpp Require Import base decidable option list sorting gmap strings.

Local Open Scope Z_scope.

(** ** Python values *)

Inductive value : Type :=
| VNone
| VInt (z : Z)
| VFloat (bits : Z)
| VStr (s : string).

#[global] Instance value_eq_dec : EqDecision value.
Proof. solve_decision. Defined.

#[global] Instance value_inhabited : Inhabited value := populate VNone.

(** [l * k] on Python lists. *)
Definition list_mul {A} (l : list A) (k : nat) : list A :=
  concat (replicate k l).

(** ** [class Species] *)

Record Species : Type := mkSpecies {
  id : string;
  dnf : value;
  df : value;
  fu : value
}.

(** [Species.__init__(self, name, non_flowering_density, flowering_density,
    flowering_units)]. *)
Definition Species_init (name : string)
    (non_flowering_density flowering_density flowering_units : value)
    : Species :=
  {| id := name;
     dnf := if decide (non_flowering_density = VNone) then VInt 0
            else non_flowering_density;
     df := if decide (flowering_density = VNone) then VInt 0
           else flowering_density;
     fu := if decide (flowering_units = VNone) then VInt 0
           else flowering_units |}.

(** ** [bisect.insort] and [list.index] *)

(** The loop of [bisect.bisect_right]: [while lo < hi: mid = (lo+hi)//2;
    if x < a[mid]: hi = mid else: lo = mid+1].  The list is not required to
    be sorted; the loop runs on whatever it is given. *)
Fixpoint bisect_loop (fuel : nat) (a : list Z) (x : Z) (lo hi : nat) : nat :=
  match fuel with
  | O => lo
  | S fuel' =>
      if decide (lo < hi)%nat then
        let mid := ((lo + hi) / 2)%nat in
        match a !! mid with
        | Some am =>
            if decide (x < am) then bisect_loop fuel' a x lo mid
            else bisect_loop fuel' a x (S mid) hi
        | None => lo
        end
      else lo
  end.

Definition bisect_right (a : list Z) (x : Z) : nat :=
  bisect_loop (length a) a x 0 (length a).

(** [a.insert(i, x)]. *)
Definition list_insert_at {A} (i : nat) (x : A) (a : list A) : list A :=
  take i a ++ x :: drop i a.

(** [bisect.insort(a, x)], which is [insort_right]. *)
Definition insort (a : list Z) (x : Z) : list Z :=
  list_insert_at (bisect_right a x) x a.

(** [a.index(x)]; [None] stands for the [ValueError]. *)
Fixpoint index (a : list Z) (x : Z) : option nat :=
  match a with
  | [] => None
  | y :: a' => if decide (y = x) then Some O else S <$> index a' x
  end.

(** ** [class Survey] and its registry *)

Record Survey : Type := mkSurvey {
  site : string;
  date : Z;
  species : list Species;
  phen_num : Z
}.

Definition set_phen_num (f : Z → Z) (s : Survey) : Survey :=
  {| site := site s; date := date s; species := species s;
     phen_num := f (phen_num s) |}.

(** The class attributes [Survey.all_surveys] and [Survey.survey_dates]. *)
Record Registry : Type := mkRegistry {
  all_surveys : list Survey;
  survey_dates : list Z
}.

Definition empty_registry : Registry :=
  {| all_surveys := []; survey_dates := [] |}.

(** References into the store, paired with the object they point to. *)
Definition enumerate {A} (l : list A) : list (nat * A) :=
  imap (λ i x, (i, x)) l.

(** [get_other_surveys_from_site]: references to the registered surveys of
    the site, in registration order. *)
Definition get_other_surveys_from_site (store : list Survey)
    (self_site : string) : list nat :=
  (filter (λ p, self_site = site p.2) (enumerate store)).*1.

(** [get_dates_site_surveyed]: their dates, in registration order. *)
Definition get_dates_site_surveyed (store : list Survey)
    (self_site : string) : list Z :=
  date <$> filter (λ o, self_site = site o) store.

(** [date] read through a reference. *)
Definition deref_date (store : list Survey) (r : nat) : option Z :=
  date <$> store !! r.

(** [surv.date < d] and [surv.date > d] for the object behind a reference. *)
Definition dated_before (store : list Survey) (d : Z) (r : nat) : Prop :=
  match deref_date store r with Some d' => d' < d | None => False end.

Definition dated_after (store : list Survey) (d : Z) (r : nat) : Prop :=
  match deref_date store r with Some d' => d' > d | None => False end.

#[global] Instance dated_before_dec store d r :
  Decision (dated_before store d r).
Proof. unfold dated_before. destruct (deref_date store r); apply _. Defined.

#[global] Instance dated_after_dec store d r :
  Decision (dated_after store d r).
Proof. unfold dated_after. destruct (deref_date store r); apply _. Defined.

(** [for surv in refs: surv.phen_num = f(surv.phen_num)]. *)
Definition update_each (f : Z → Z) (refs : list nat)
    (store : list Survey) : list Survey :=
  foldl (λ h r, alter (set_phen_num f) r h) store refs.

(** [Survey._calc_num_phenologies(survey)] for the survey under
    construction, which is not yet in [all_surveys]: returns its [phen_num]
    and the registry after the updates. *)
Definition _calc_num_phenologies (reg : Registry)
    (survey_site : string) (survey_date : Z) : option (Z * Registry) :=
  let store := all_surveys reg in
  let other_surveys := get_other_surveys_from_site store survey_site in
  let dates_surveyed := get_dates_site_surveyed store survey_site in
  let dates_surveyed := insort dates_surveyed survey_date in
  i ← index dates_surveyed survey_date;
  let phen := Z.of_nat i + 1 in
  let surveys_before :=
    filter (dated_before store survey_date) other_surveys in
  let surveys_after :=
    filter (dated_after store survey_date) other_surveys in
  let store := update_each (λ n, n - 1) surveys_before store in
  let store := update_each (λ n, n + 1) surveys_after store in
  let dates :=
    if decide (survey_date ∈ survey_dates reg) then survey_dates reg
    else insort (survey_dates reg) survey_date in
  Some (phen, {| all_surveys := store; survey_dates := dates |}).

(** [Survey(site, date, species_comp)]: numbers the new survey, renumbers
    its siblings, then appends it to [all_surveys]. *)
Definition Survey_init (reg : Registry) (site_name : string)
    (survey_date : Z) (species_comp : list Species) : option Registry :=
  '(phen, reg') ← _calc_num_phenologies reg site_name survey_date;
  Some {| all_surveys :=
            all_surveys reg' ++
            [ {| site := site_name; date := survey_date;
                 species := species_comp; phen_num := phen |} ];
          survey_dates := survey_dates reg' |}.

(** ** Module constants *)

Definition VARIABLE_LIST : list string := ["DNF"; "DF"; "FU"]%string.
Definition NUM_PHENOLOGIES : nat := 2.

(** ** [sorted] and [set] *)

(** Python compares [str] values code point by code point; a [string] holds
    the UTF-8 bytes, whose order is the same. *)
Definition str_le (s1 s2 : string) : Prop := String.leb s1 s2 = true.

#[global] Instance str_le_dec s1 s2 : Decision (str_le s1 s2).
Proof. unfold str_le. apply _. Defined.

(** [sorted(l)] on strings and on integers.  The order is total and equal
    keys are identical values, so the result is the one ascending
    rearrangement of [l], whatever the sorting algorithm. *)
Definition sorted_str (l : list string) : list string := merge_sort str_le l.
Definition sorted_int (l : list Z) : list Z := merge_sort Z.le l.

(** [sorted(set(l))]: the distinct elements of [l], ascending. *)
Definition sorted_set (l : list string) : list string :=
  sorted_str (remove_dups l).

(** ** The worksheet *)

Abbreviation worksheet := (gmap (nat * nat) value).

(** The state the summary pass runs in: the class-level registry, reachable
    from every function, and the "Summary" sheet. *)
Record World : Type := mkWorld {
  registry : Registry;
  sum_ws : worksheet
}.

(** [Survey.get_all_surveys()] returns the list object [Survey.all_surveys]
    itself: whoever holds it reads the list as it is when read. *)
Definition get_all_surveys (w : World) : list Survey :=
  all_surveys (registry w).

(** [cell.value] *)
Definition cell_value (ws : worksheet) (c : nat * nat) : value :=
  default VNone (ws !! c).

(** [cell.value = v] *)
Definition set_cell (w : World) (c : nat * nat) (v : value) : World :=
  {| registry := registry w; sum_ws := <[c := v]> (sum_ws w) |}.

(** [ws.iter_rows(min_row, max_row, min_col, max_col)]: the rows in order,
    each the tuple of its cells, a cell being its (row, column). *)
Definition iter_rows (min_row max_row min_col max_col : nat)
    : list (list (nat * nat)) :=
  (λ r, (λ c, (r, c)) <$> seq min_col (max_col + 1 - min_col))
    <$> seq min_row (max_row + 1 - min_row).

(** [ws.iter_cols(min_col, max_col, min_row, max_row)]: the columns in
    order, each the tuple of its cells. *)
Definition iter_cols (min_col max_col min_row max_row : nat)
    : list (list (nat * nat)) :=
  (λ c, (λ r, (r, c)) <$> seq min_row (max_row + 1 - min_row))
    <$> seq min_col (max_col + 1 - min_col).

(** [cells[k].value = v]; a missing cell stands for the [IndexError], which
    no call below can reach. *)
Definition set_nth_cell (w : World) (cells : list (nat * nat)) (k : nat)
    (v : value) : World :=
  match cells !! k with
  | Some c => set_cell w c v
  | None => w
  end.

(** [cells[k].value] *)
Definition nth_cell_value (w : World) (cells : list (nat * nat)) (k : nat)
    : value :=
  match cells !! k with
  | Some c => cell_value (sum_ws w) c
  | None => VNone
  end.

(** [for cell, x in zip(rows, values): cell[0].value = x] *)
Definition write_first_cells (w : World) (rows : list (list (nat * nat)))
    (values : list value) : World :=
  foldl (λ w p, set_nth_cell w p.1 O p.2) w (zip rows values).

(** ** The summary writers *)

Definition write_summary_headers (w : World) (all_species : list string)
    : World :=
  let w := set_cell w (1, 1)%nat (VStr "Site") in
  let w := set_cell w (1, 2)%nat (VStr "Variable") in
  let w := set_cell w (1, 3)%nat (VStr "Phenology") in
  let col_gen := iter_cols 4 (length all_species + 3) 1 1 in
  fst (foldl (λ st sp,
                match st.2 with
                | col :: col_gen' => (set_nth_cell st.1 col O (VStr sp), col_gen')
                | [] => (st.1, [])
                end)
             (w, col_gen) all_species).

Definition write_sites_to_rows (w : World) (site_names : list string)
    : World :=
  let name_copy := site_names in
  (* Repeat site names based on number of variables *)
  let name_copy := list_mul name_copy (length VARIABLE_LIST * NUM_PHENOLOGIES) in
  write_first_cells w (iter_rows 2 (length name_copy + 1) 1 1)
                    (VStr <$> name_copy).

Definition variables_axis (num_sites : nat) : list string :=
  sorted_str (list_mul (list_mul VARIABLE_LIST num_sites) NUM_PHENOLOGIES).

Definition write_variables_to_rows (w : World) (num_sites : nat) : World :=
  let variables := variables_axis num_sites in
  write_first_cells w (iter_rows 2 (length variables + 1) 2 3)
                    (VStr <$> variables).

Definition phenology_axis (num_sites : nat) : list Z :=
  list_mul (sorted_int (list_mul (Z.of_nat <$> seq 1 NUM_PHENOLOGIES) num_sites))
           (length VARIABLE_LIST).

Definition write_phenology_to_rows (w : World) (num_sites : nat) : World :=
  let phenology_list := phenology_axis num_sites in
  write_first_cells w (iter_rows 2 (length phenology_list + 1) 3 4)
                    (VInt <$> phenology_list).

(** The body of the [for idx, species_name in enumerate(species_list)] loop
    of [write_data_to_rows]. *)
Definition fill_cell (survey_list : World → list Survey)
    (row : list (nat * nat))
    (site_name variable phenology : value)
    (w : World) (p : nat * string) : World :=
  let '(idx, species_name) := p in
  let survey :=
    filter (λ survey, VStr (site survey) = site_name
                      ∧ VInt (phen_num survey) = phenology)
           (survey_list w) in
  match survey with
  | [survey] =>
      let species_obj :=
        filter (λ sp, id sp = species_name) (species survey) in
      match species_obj with
      | [species_obj] =>
          let datum :=
            if decide (variable = VStr "DNF") then dnf species_obj
            else if decide (variable = VStr "DF") then df species_obj
            else if decide (variable = VStr "FU") then fu species_obj
            else VNone in
          set_nth_cell w row (idx + 3) datum
      | _ => w
      end
  | _ => w
  end.

(** The body of the [for row in sum_ws.iter_rows(...)] loop. *)
Definition fill_row (survey_list : World → list Survey)
    (species_list : list string) (w : World)
    (row : list (nat * nat)) : World :=
  let site_name := nth_cell_value w row 0 in
  let variable := nth_cell_value w row 1 in
  let phenology := nth_cell_value w row 2 in
  foldl (fill_cell survey_list row site_name variable phenology) w
        (enumerate species_list).

Definition write_data_to_rows (w : World)
    (survey_list : World → list Survey) (num_sites : nat)
    (species_list : list string) : World :=
  let num_rows := (num_sites * NUM_PHENOLOGIES * length VARIABLE_LIST)%nat in
  foldl (fill_row survey_list species_list) w
        (iter_rows 2 (num_rows + 1) 1 (length species_list + 3)).

(** ** [main] *)

(** What [main] reads from one sheet: [B2], [D2] and, from row 4 on, the
    first four cells of every row. *)
Record Sheet : Type := mkSheet {
  B2 : string;
  D2 : Z;
  species_rows : list (string * value * value * value)
}.

Definition get_site_name (sheet : Sheet) : string := B2 sheet.
Definition get_survey_date (sheet : Sheet) : Z := D2 sheet.

Definition get_survey_species (sheet : Sheet) : list Species :=
  (λ row, let '(species_name, dnf, df, fu) := row in
          Species_init species_name dnf df fu) <$> species_rows sheet.

(** The locals of [main] across the [for sheet in wb] loop. *)
Record Ingested : Type := mkIngested {
  all_species : list Species;
  all_sites : list string;
  surveys : Registry
}.

Definition ingest_sheet (acc : Ingested) (sheet : Sheet) : option Ingested :=
  let site_name := get_site_name sheet in
  let all_sites := all_sites acc ++ [site_name] in
  let survey_date := get_survey_date sheet in
  let species_comp := get_survey_species sheet in
  let all_species := all_species acc ++ species_comp in
  reg ← Survey_init (surveys acc) site_name survey_date species_comp;
  Some {| all_species := all_species; all_sites := all_sites;
          surveys := reg |}.

Fixpoint ingest (acc : Ingested) (wb : list Sheet) : option Ingested :=
  match wb with
  | [] => Some acc
  | sheet :: wb' => acc' ← ingest_sheet acc sheet; ingest acc' wb'
  end.

(** The part of [main] after the loop, up to the last writer, on the new
    empty "Summary" sheet. *)
Definition summarize (acc : Ingested) : World :=
  let species_ids := sorted_set (id <$> all_species acc) in
  let all_sites := sorted_set (all_sites acc) in
  let w := {| registry := surveys acc; sum_ws := ∅ |} in
  let num_sites := length all_sites in
  let w := write_summary_headers w species_ids in
  let w := write_sites_to_rows w all_sites in
  let w := write_variables_to_rows w num_sites in
  let w := write_phenology_to_rows w num_sites in
  write_data_to_rows w get_all_surveys num_sites species_ids.

(** [all_species = []], [all_sites = []] and the empty class lists. *)
Definition no_sheets : Ingested :=
  {| all_species := []; all_sites := []; surveys := empty_registry |}.

Definition main (wb : list Sheet) : option World :=
  acc ← ingest no_sheets wb;
  Some (summarize acc).

(** No character of [s] is [c]. *)
Fixpoint free_of (c : ascii) (s : string) : Prop :=
  match s with
  | EmptyString => True
  | String c' s' => c' ≠ c ∧ free_of c s'
  end.

(** [s.split(sep)] for a one-character separator. *)
Fixpoint split_on (sep : ascii) (s : string) : list string :=
  match s with
  | EmptyString => [EmptyString]
  | String c s' =>
      if decide (c = sep) then EmptyString :: split_on sep s'
      else match split_on sep s' with
           | piece :: pieces => String c piece :: pieces
           | [] => [String c EmptyString]
           end
  end.

(** [file_name, extension = data.split('.')] followed by
    [file_name + "_summarized" + "." + extension]; [None] stands for the
    [ValueError] of an unpacking that does not find two pieces. *)
Definition summarized_path (data : string) : option string :=
  match split_on "."%char data with
  | [file_name; extension] =>
      Some (file_name +:+ "_summarized" +:+ "." +:+ extension)
  | _ => None
  end.

(** ** Definitions used to state the properties *)

(** What one pass of the inner loop of [write_data_to_rows] writes, if it
    writes. *)
Definition fill_datum (survey_list : list Survey)
    (site_name variable phenology : value) (species_name : string)
    : option value :=
  match filter (λ survey, VStr (site survey) = site_name
                          ∧ VInt (phen_num survey) = phenology)
               survey_list with
  | [survey] =>
      match filter (λ sp, id sp = species_name) (species survey) with
      | [species_obj] =>
          Some (if decide (variable = VStr "DNF") then dnf species_obj
                else if decide (variable = VStr "DF") then df species_obj
                else if decide (variable = VStr "FU") then fu species_obj
                else VNone)
      | _ => None
      end
  | _ => None
  end.

(** The cells of a row handed out by [iter_rows(min_col=1)]. *)
Definition row_cells (r ncols : nat) : list (nat * nat) :=
  (λ k, (r, k)) <$> seq 1 ncols.

(** What [write_data_to_rows] leaves in a cell, from the readings of the
    first three cells of its row. *)
Definition filled (survey_list : list Survey) (ws : worksheet)
    (sp : list string) (lo hi r k : nat) : option value :=
  match sp !! (k - 4)%nat with
  | Some name =>
      match fill_datum survey_list (cell_value ws (r, 1%nat))
              (cell_value ws (r, 2%nat)) (cell_value ws (r, 3%nat)) name with
      | Some datum =>
          if decide (lo ≤ r < hi ∧ 4 ≤ k)%nat then Some datum
          else ws !! (r, k)
      | None => ws !! (r, k)
      end
  | None => ws !! (r, k)
  end.


(** The world after the header and the three axis writers, before the data
    is filled in. *)
Definition axes_written (acc : Ingested) : World :=
  let species_ids := sorted_set (id <$> all_species acc) in
  let all_sites := sorted_set (all_sites acc) in
  let w := {| registry := surveys acc; sum_ws := ∅ |} in
  let num_sites := length all_sites in
  let w := write_summary_headers w species_ids in
  let w := write_sites_to_rows w all_sites in
  let w := write_variables_to_rows w num_sites in
  write_phenology_to_rows w num_sites.

(** A calendar day as a position on the time line; the numbering preserves
    the order of calendar days. *)
Definition day (y m d : Z) : Z := (y * 12 + (m - 1)) * 31 + (d - 1).

(** [Survey(site, date, [])] for each date in turn. *)
Fixpoint register_dates (reg : Registry) (s : string) (ds : list Z)
    : option Registry :=
  match ds with
  | [] => Some reg
  | d :: ds' => reg' ← Survey_init reg s d []; register_dates reg' s ds'
  end.

Definition phen_nums (reg : Registry) : list Z := phen_num <$> all_surveys reg.

Definition site_B_then_A : Registry :=
  {| all_surveys :=
       [ {| site := "B"; date := 5; species := []; phen_num := 1 |};
         {| site := "A"; date := 9; species := []; phen_num := 1 |} ];
     survey_dates := [5; 9] |}.

(** A workbook of three sheets: site "B" surveyed twice, the later survey
    first, and site "A" once. *)
Definition example_wb : list Sheet :=
  [ {| B2 := "B"; D2 := day 2020 5 1;
       species_rows := [ ("grass"%string, VNone, VInt 3, VInt 4);
                         ("oak"%string, VInt 1, VNone, VNone) ] |};
    {| B2 := "A"; D2 := day 2020 7 1;
       species_rows := [ ("oak"%string, VInt 9, VInt 8, VInt 7) ] |};
    {| B2 := "B"; D2 := day 2020 2 1;
       species_rows := [ ("grass"%string, VInt 11, VInt 12, VInt 13) ] |} ].

Definition example_world : World :=
  default {| registry := empty_registry; sum_ws := ∅ |} (main example_wb).

(** What a registration at date [d] does to the number of a registered
    survey of the same site, as the two loops of [_calc_num_phenologies]
    are shown to act. *)
Definition shift (d : Z) (o : Survey) : Survey :=
  set_phen_num (λ n, if decide (date o < d) then n - 1
                     else if decide (date o > d) then n + 1
                     else n) o.

(** The same for a registered survey of any site, the new one being of
    site [s]. *)
Definition renumber (s : string) (d : Z) (o : Survey) : Survey :=
  if decide (site o = s) then shift d o else o.

(** The registered surveys of a site, in registration order. *)
Definition site_surveys (s : string) (reg : Registry) : list Survey :=
  filter (λ o, site o = s) (all_surveys reg).

(** The rank of a survey by date among the surveys [l]: one more than the
    count of those dated strictly before it. *)
Definition date_rank (l : list Survey) (o : Survey) : Z :=
  Z.of_nat (length (filter (λ o', date o' < date o) l)) + 1.

(** What a sheet supplies to a survey: everything but the number. *)
Definition unnumbered (o : Survey) : string * Z * list Species :=
  (site o, date o, species o).

Definition sheet_survey (sheet : Sheet) : string * Z * list Species :=
  (get_site_name sheet, get_survey_date sheet, get_survey_species sheet).

(** The sheets of a workbook that belong to one site, in workbook order. *)
Definition site_sheets (s : string) (wb : list Sheet) : list Sheet :=
  filter (λ sheet, get_site_name sheet = s) wb.

Definition example_acc : Ingested :=
  default no_sheets (ingest no_sheets example_wb).

(** A workbook with the sheets of site "A" in date order, a sheet of site
    "B" between them. *)
Definition chronological_wb : list Sheet :=
  [ {| B2 := "A"; D2 := day 2020 1 1; species_rows := [] |};
    {| B2 := "A"; D2 := day 2020 2 1; species_rows := [] |};
    {| B2 := "B"; D2 := day 2020 2 15; species_rows := [] |};
    {| B2 := "A"; D2 := day 2020 3 1; species_rows := [] |} ].

Definition chronological_acc : Ingested :=
  default no_sheets (ingest no_sheets chronological_wb).

(** * Properties *)

(** ** The search loop of [bisect] *)

Lemma bisect_mid_bounds (lo hi : nat) :
  (lo < hi)%nat → (lo ≤ (lo + hi) / 2 < hi)%nat.
Proof.
  intros Hlt. split.
  - apply Nat.div_le_lower_bound; lia.
  - apply Nat.Div0.div_lt_upper_bound; lia.
Qed.

Lemma bisect_loop_S (a : list Z) (x : Z) (f lo hi : nat) :
  bisect_loop (S f) a x lo hi =
  if decide (lo < hi)%nat then
    match a !! ((lo + hi) / 2)%nat with
    | Some am =>
        if decide (x < am) then bisect_loop f a x lo ((lo + hi) / 2)%nat
        else bisect_loop f a x (S ((lo + hi) / 2)%nat) hi
    | None => lo
    end
  else lo.
Proof. reflexivity. Qed.

(** The fuel of [bisect_loop] is enough as soon as it covers [hi - lo]. *)
Lemma bisect_loop_fuel (a : list Z) (x : Z) (f1 f2 lo hi : nat) :
  (hi - lo ≤ f1)%nat → (hi - lo ≤ f2)%nat →
  bisect_loop f1 a x lo hi = bisect_loop f2 a x lo hi.
Proof.
  revert f2 lo hi. induction f1 as [|f1 IH]; intros f2 lo hi H1 H2.
  - destruct f2 as [|f2]; [done|]. rewrite bisect_loop_S.
    destruct (decide (lo < hi)%nat); [lia|done].
  - destruct f2 as [|f2]; rewrite !bisect_loop_S.
    + destruct (decide (lo < hi)%nat); [lia|done].
    + destruct (decide (lo < hi)%nat) as [Hlt|]; [|done].
      pose proof (bisect_mid_bounds lo hi Hlt) as Hmid.
      destruct (a !! ((lo + hi) / 2)%nat) as [am|]; [|done].
      destruct (decide (x < am)); apply IH; lia.
Qed.

Lemma bisect_loop_bounds (a : list Z) (x : Z) (f lo hi : nat) :
  (lo ≤ hi)%nat → (lo ≤ bisect_loop f a x lo hi ≤ hi)%nat.
Proof.
  revert lo hi. induction f as [|f IH]; intros lo hi Hle; [simpl; lia|].
  rewrite bisect_loop_S.
  destruct (decide (lo < hi)%nat) as [Hlt|]; [|lia].
  pose proof (bisect_mid_bounds lo hi Hlt) as Hmid.
  destruct (a !! ((lo + hi) / 2)%nat) as [am|]; [|lia].
  destruct (decide (x < am)).
  - specialize (IH lo ((lo + hi) / 2)%nat). lia.
  - specialize (IH (S ((lo + hi) / 2)) hi). lia.
Qed.

Lemma bisect_right_le_length (a : list Z) (x : Z) :
  (bisect_right a x ≤ length a)%nat.
Proof. unfold bisect_right. pose proof (bisect_loop_bounds a x (length a) 0 (length a)). lia. Qed.

Lemma elem_of_list_insert_at {A} (i : nat) (x y : A) (a : list A) :
  y ∈ list_insert_at i x a ↔ y = x ∨ y ∈ a.
Proof.
  unfold list_insert_at. rewrite elem_of_app, elem_of_cons.
  assert (y ∈ a ↔ y ∈ take i a ∨ y ∈ drop i a) as ->; [|tauto].
  by rewrite <- elem_of_app, take_drop.
Qed.

Lemma length_list_insert_at {A} (i : nat) (x : A) (a : list A) :
  length (list_insert_at i x a) = S (length a).
Proof.
  unfold list_insert_at. rewrite length_app. simpl.
  rewrite <- (take_drop i a) at 3. rewrite length_app. lia.
Qed.

Lemma elem_of_insort (a : list Z) (x y : Z) :
  y ∈ insort a x ↔ y = x ∨ y ∈ a.
Proof. apply elem_of_list_insert_at. Qed.

Lemma length_insort (a : list Z) (x : Z) :
  length (insort a x) = S (length a).
Proof. apply length_list_insert_at. Qed.

Lemma index_is_Some (a : list Z) (x : Z) : x ∈ a → is_Some (index a x).
Proof.
  induction a as [|y a IH]; intros Hin; [by apply elem_of_nil in Hin|].
  simpl. destruct (decide (y = x)); [by eexists|].
  apply elem_of_cons in Hin as [->|Hin]; [done|].
  destruct (IH Hin) as [i ->]. by eexists.
Qed.

(** ** [bisect] on a sorted list *)

Lemma StronglySorted_lookup_le (a : list Z) (i j : nat) (y z : Z) :
  StronglySorted Z.le a → (i ≤ j)%nat →
  a !! i = Some y → a !! j = Some z → y ≤ z.
Proof.
  intros Hs. revert i j.
  induction Hs as [|w a Hs IH Hall]; intros i j Hij Hi Hj; [done|].
  destruct i as [|i], j as [|j]; simpl in *.
  - by simplify_eq.
  - injection Hi as ->. by eapply Forall_lookup_1.
  - lia.
  - apply (IH i j); [lia|done..].
Qed.

(** On a sorted list the loop separates the elements up to [x] from those
    above [x]. *)
Lemma bisect_loop_sorted (a : list Z) (x : Z) (f lo hi : nat) :
  StronglySorted Z.le a →
  (lo ≤ hi ≤ length a)%nat → (hi - lo ≤ f)%nat →
  (∀ i y, (i < lo)%nat → a !! i = Some y → y ≤ x) →
  (∀ i y, (hi ≤ i)%nat → a !! i = Some y → x < y) →
  (∀ i y, (i < bisect_loop f a x lo hi)%nat → a !! i = Some y → y ≤ x)
  ∧ (∀ i y, (bisect_loop f a x lo hi ≤ i)%nat → a !! i = Some y → x < y).
Proof.
  intros Hs. revert lo hi.
  induction f as [|f IH]; intros lo hi Hle Hf Hlo Hhi.
  - simpl. split; [done|]. intros i y Hi. apply Hhi. lia.
  - rewrite bisect_loop_S.
    destruct (decide (lo < hi)%nat) as [Hlt|Hge].
    2: { split; [done|]. intros i y Hi. apply Hhi. lia. }
    pose proof (bisect_mid_bounds lo hi Hlt) as Hmid.
    destruct (lookup_lt_is_Some_2 a ((lo + hi) / 2)%nat) as [am Ham]; [lia|].
    rewrite Ham. destruct (decide (x < am)) as [Hx|Hx].
    + apply IH; [lia|lia|done|].
      intros i y Hi Hy.
      pose proof (StronglySorted_lookup_le a _ i am y Hs Hi Ham Hy). lia.
    + apply IH; [lia|lia| |done].
      intros i y Hi Hy.
      assert (i ≤ (lo + hi) / 2)%nat as Hi' by lia.
      pose proof (StronglySorted_lookup_le a i _ y am Hs Hi' Hy Ham). lia.
Qed.

Lemma bisect_right_sorted (a : list Z) (x : Z) :
  StronglySorted Z.le a →
  Forall (λ y, y ≤ x) (take (bisect_right a x) a)
  ∧ Forall (λ y, x < y) (drop (bisect_right a x) a).
Proof.
  intros Hs. unfold bisect_right.
  destruct (bisect_loop_sorted a x (length a) 0 (length a) Hs)
    as [Hlow Hhigh]; [lia|lia|intros; lia|..].
  { intros i y Hi Hy. apply lookup_lt_Some in Hy. lia. }
  split; apply Forall_lookup; intros i y Hy.
  - apply lookup_take_Some in Hy as [Hy Hi]. by eapply Hlow.
  - rewrite lookup_drop in Hy. eapply Hhigh; [|done]. lia.
Qed.

Lemma insort_Permutation (a : list Z) (x : Z) : insort a x ≡ₚ x :: a.
Proof.
  unfold insort, list_insert_at. symmetry.
  apply Permutation_cons_app. by rewrite take_drop.
Qed.

(** [insort] keeps a sorted list sorted. *)
Lemma insort_sorted (a : list Z) (x : Z) :
  StronglySorted Z.le a → StronglySorted Z.le (insort a x).
Proof.
  intros Hs. destruct (bisect_right_sorted a x Hs) as [Hlow Hhigh].
  rewrite <- (take_drop (bisect_right a x) a) in Hs.
  apply StronglySorted_app in Hs as (_ & Hs1 & Hs2).
  unfold insort, list_insert_at. apply StronglySorted_app_2; [|done|].
  - intros y z Hy Hz. rewrite Forall_forall in Hlow, Hhigh.
    apply Hlow in Hy. apply elem_of_cons in Hz as [->|Hz]; [done|].
    apply Hhigh in Hz. lia.
  - constructor; [done|]. eapply Forall_impl; [exact Hhigh|].
    simpl. intros. lia.
Qed.

Lemma filter_none {A} (P : A → Prop) `{!∀ x, Decision (P x)} (l : list A) :
  Forall (λ x, ¬ P x) l → filter P l = [].
Proof.
  induction 1 as [|x l Hx Hl IH]; [done|].
  by rewrite filter_cons, decide_False.
Qed.

(** In a sorted list [index] counts the elements below the one found. *)
Lemma index_sorted (l : list Z) (x : Z) :
  StronglySorted Z.le l → x ∈ l →
  index l x = Some (length (filter (λ y, y < x) l)).
Proof.
  induction 1 as [|y l Hs IH Hall]; intros Hin; [by apply elem_of_nil in Hin|].
  simpl. rewrite filter_cons. destruct (decide (y = x)) as [->|Hne].
  - rewrite decide_False by lia. rewrite filter_none; [done|].
    eapply Forall_impl; [exact Hall|]. simpl. intros. lia.
  - apply elem_of_cons in Hin as [->|Hin]; [done|].
    rewrite Forall_forall in Hall. pose proof (Hall x Hin).
    rewrite decide_True by lia. by rewrite IH.
Qed.

(** On sorted dates the number found for a new date is the count of the
    dates strictly before it. *)
Lemma index_insort_sorted (a : list Z) (x : Z) :
  StronglySorted Z.le a →
  index (insort a x) x = Some (length (filter (λ y, y < x) a)).
Proof.
  intros Hs. rewrite index_sorted.
  - rewrite insort_Permutation, filter_cons, decide_False by lia. done.
  - by apply insort_sorted.
  - apply elem_of_insort. by left.
Qed.

(** ** [Species.__init__] *)

(** C8: every [None] among the three measurements becomes [0] in the
    constructed record, so no field of a record is [None]; a record built
    from name "Grass", both densities absent and 5 units has densities 0
    and 5 units. *)
Theorem Species_init_defaults (name : string) (d1 d2 u : value) :
  let sp := Species_init name d1 d2 u in
  id sp = name
  ∧ dnf sp = (if decide (d1 = VNone) then VInt 0 else d1)
  ∧ df sp = (if decide (d2 = VNone) then VInt 0 else d2)
  ∧ fu sp = (if decide (u = VNone) then VInt 0 else u)
  ∧ dnf sp ≠ VNone ∧ df sp ≠ VNone ∧ fu sp ≠ VNone
  ∧ Species_init "Grass" VNone VNone (VInt 5)
    = {| id := "Grass"; dnf := VInt 0; df := VInt 0; fu := VInt 5 |}.
Proof.
  simpl. repeat split; try reflexivity;
    repeat case_decide; congruence.
Qed.

(** ** The registry *)

Section registry.
Implicit Types (reg : Registry) (store : list Survey) (o : Survey).

(** The references of [get_other_surveys_from_site] point to surveys of
    the site. *)
Lemma elem_of_other_surveys store s r :
  r ∈ get_other_surveys_from_site store s ↔
  ∃ o, store !! r = Some o ∧ site o = s.
Proof.
  unfold get_other_surveys_from_site, enumerate.
  rewrite list_elem_of_fmap. split.
  - intros [[r' o] [-> Hin]]. apply list_elem_of_filter in Hin as [Hs Hin].
    apply elem_of_lookup_imap in Hin as (i & o' & [= -> ->] & Hl).
    simpl in *. eauto.
  - intros (o & Hl & Hs). exists (r, o). split; [done|].
    apply list_elem_of_filter. split; [done|].
    apply elem_of_lookup_imap. eauto.
Qed.

(** An update through references leaves the other objects alone. *)
Lemma update_each_lookup_ne f refs store i :
  i ∉ refs → update_each f refs store !! i = store !! i.
Proof.
  unfold update_each. revert store.
  induction refs as [|r refs IH]; intros store Hni; [done|].
  apply not_elem_of_cons in Hni as [Hne Hni]. simpl.
  rewrite IH by done. by apply list_lookup_alter_ne.
Qed.

Lemma length_update_each f refs store :
  length (update_each f refs store) = length store.
Proof.
  unfold update_each. revert store.
  induction refs as [|r refs IH]; intros store; [done|].
  simpl. by rewrite IH, length_alter.
Qed.

(** The date just inserted is found: [index] cannot raise in
    [_calc_num_phenologies]. *)
Lemma _calc_num_phenologies_total reg s d :
  is_Some (_calc_num_phenologies reg s d).
Proof.
  unfold _calc_num_phenologies.
  destruct (index_is_Some (insort (get_dates_site_surveyed (all_surveys reg) s) d) d)
    as [i Hi]; [apply elem_of_insort; by left|].
  rewrite Hi. simpl. by eexists.
Qed.

Lemma Survey_init_total reg s d sp : is_Some (Survey_init reg s d sp).
Proof.
  unfold Survey_init.
  destruct (_calc_num_phenologies_total reg s d) as [[phen reg'] ->].
  simpl. by eexists.
Qed.

(** What [Survey_init] does to a registered survey of another site. *)
Lemma Survey_init_lookup_other reg reg' s d sp i o :
  Survey_init reg s d sp = Some reg' →
  all_surveys reg !! i = Some o → site o ≠ s →
  all_surveys reg' !! i = Some o.
Proof.
  unfold Survey_init, _calc_num_phenologies. intros Hinit Hl Hs.
  destruct (index _ d) as [k|]; [|done]. simpl in Hinit.
  injection Hinit as <-. simpl.
  assert (i ∉ get_other_surveys_from_site (all_surveys reg) s) as Hni.
  { rewrite elem_of_other_surveys. intros (o' & Hl' & Hs'). congruence. }
  rewrite lookup_app_l.
  2: { rewrite !length_update_each. by eapply lookup_lt_Some. }
  rewrite !update_each_lookup_ne; [done|..];
    intros Hin%list_elem_of_filter; tauto.
Qed.

Lemma Survey_init_length reg reg' s d sp :
  Survey_init reg s d sp = Some reg' →
  length (all_surveys reg') = S (length (all_surveys reg)).
Proof.
  unfold Survey_init, _calc_num_phenologies. intros Hinit.
  destruct (index _ d) as [k|]; [|done]. simpl in Hinit.
  injection Hinit as <-. simpl.
  rewrite length_app, !length_update_each. simpl. lia.
Qed.
Lemma NoDup_enumerate_fst store : NoDup (enumerate store).*1.
Proof.
  unfold enumerate. apply NoDup_alt. intros i j r.
  rewrite !list_lookup_fmap, !list_lookup_imap.
  destruct (store !! i); [|done]. destruct (store !! j); [|done].
  simpl. congruence.
Qed.

Lemma NoDup_filter_fst {A} (P : nat * A → Prop) `{!∀ p, Decision (P p)}
    (l : list (nat * A)) :
  NoDup l.*1 → NoDup (filter P l).*1.
Proof.
  induction l as [|p l IH]; [done|].
  rewrite fmap_cons, NoDup_cons. intros [Hni Hnd].
  rewrite filter_cons. destruct (decide (P p)); [|by apply IH].
  rewrite fmap_cons, NoDup_cons. split; [|by apply IH].
  intros Hin. apply Hni.
  apply list_elem_of_fmap in Hin as (q & -> & Hq).
  apply list_elem_of_filter in Hq as [_ Hq].
  apply list_elem_of_fmap. eauto.
Qed.

Lemma NoDup_other_surveys store s :
  NoDup (get_other_surveys_from_site store s).
Proof. apply NoDup_filter_fst, NoDup_enumerate_fst. Qed.

(** An update through distinct references changes each object once. *)
Lemma update_each_lookup f refs store i :
  NoDup refs →
  update_each f refs store !! i =
  if decide (i ∈ refs) then set_phen_num f <$> store !! i
  else store !! i.
Proof.
  unfold update_each. revert store.
  induction refs as [|r refs IH]; intros store Hnd; [done|].
  apply NoDup_cons in Hnd as [Hni Hnd]. simpl. rewrite IH by done.
  destruct (decide (i = r)) as [->|Hne].
  - rewrite decide_False by done. rewrite decide_True by left.
    by rewrite list_lookup_alter, decide_True by done.
  - rewrite list_lookup_alter_ne by done.
    destruct (decide (i ∈ refs)).
    + by rewrite decide_True by (by right).
    + rewrite decide_False; [done|]. by intros [?|?]%elem_of_cons.
Qed.

(** What [Survey_init] does to a registered survey of the same site: an
    earlier one is lowered by one, a later one is raised by one, one of
    the same date is kept. *)
Lemma Survey_init_lookup_same_site reg reg' s d sp i o :
  Survey_init reg s d sp = Some reg' →
  all_surveys reg !! i = Some o → site o = s →
  all_surveys reg' !! i =
  Some (set_phen_num (λ n, if decide (date o < d) then n - 1
                           else if decide (date o > d) then n + 1
                           else n) o).
Proof.
  unfold Survey_init, _calc_num_phenologies. intros Hinit Hl Hs.
  destruct (index _ d) as [k|]; [|done]. simpl in Hinit.
  injection Hinit as <-. simpl.
  assert (i ∈ get_other_surveys_from_site (all_surveys reg) s) as Hin
    by (apply elem_of_other_surveys; eauto).
  rewrite lookup_app_l.
  2: { rewrite !length_update_each. by eapply lookup_lt_Some. }
  rewrite !update_each_lookup
    by (apply NoDup_filter, NoDup_other_surveys).
  rewrite Hl.
  assert (∀ P : Z → Prop,
            (match deref_date (all_surveys reg) i with
             | Some d' => P d' | None => False end) ↔ P (date o)) as Hd.
  { intros P. unfold deref_date. by rewrite Hl. }
  destruct o as [so do spo no]. simpl in *.
  destruct (decide (do < d)), (decide (do > d)); try lia.
  - rewrite decide_False, decide_True; [done|..];
      rewrite list_elem_of_filter; unfold dated_before, dated_after;
      rewrite Hd; tauto || lia.
  - rewrite decide_True, decide_False; [done|..];
      rewrite list_elem_of_filter; unfold dated_before, dated_after;
      rewrite Hd; tauto || lia.
  - rewrite decide_False, decide_False; [done|..];
      rewrite list_elem_of_filter; unfold dated_before, dated_after;
      rewrite Hd; tauto || lia.
Qed.

(** The survey under construction is appended with the number found by
    [index] in the list returned by [insort]. *)
Lemma Survey_init_new reg reg' s d sp :
  Survey_init reg s d sp = Some reg' →
  ∃ k, index (insort (get_dates_site_surveyed (all_surveys reg) s) d) d
       = Some k
       ∧ all_surveys reg' !! length (all_surveys reg) =
         Some {| site := s; date := d; species := sp;
                 phen_num := Z.of_nat k + 1 |}.
Proof.
  unfold Survey_init, _calc_num_phenologies. intros Hinit.
  destruct (index _ d) as [k|]; [|done]. simpl in Hinit.
  injection Hinit as <-. simpl. exists k. split; [done|].
  rewrite lookup_app_r by (by rewrite !length_update_each).
  by rewrite !length_update_each, Nat.sub_diag.
Qed.
(** When the dates of the site were registered in ascending order, the new
    survey is numbered one more than the count of the surveys of the site
    dated strictly before it. *)
Lemma Survey_init_new_sorted reg reg' s d sp :
  StronglySorted Z.le (get_dates_site_surveyed (all_surveys reg) s) →
  Survey_init reg s d sp = Some reg' →
  all_surveys reg' !! length (all_surveys reg) =
  Some {| site := s; date := d; species := sp;
          phen_num :=
            Z.of_nat (length (filter (λ y, y < d)
                        (get_dates_site_surveyed (all_surveys reg) s))) + 1 |}.
Proof.
  intros Hs Hinit.
  destruct (Survey_init_new _ _ _ _ _ Hinit) as (k & Hk & Hl).
  rewrite index_insort_sorted in Hk by done. by injection Hk as <-.
Qed.
End registry.

(** C4: constructing a survey for a site always succeeds and leaves every
    registered survey of another site as it was, field by field, at its
    place in [all_surveys]. *)
Theorem register_other_site_unchanged (reg : Registry) (s : string) (d : Z)
    (sp : list Species) (i : nat) (o : Survey) :
  all_surveys reg !! i = Some o → site o ≠ s →
  ∃ reg', Survey_init reg s d sp = Some reg'
          ∧ all_surveys reg' !! i = Some o.
Proof.
  intros Hl Hs. destruct (Survey_init_total reg s d sp) as [reg' Hinit].
  exists reg'. split; [done|]. by eapply Survey_init_lookup_other.
Qed.

Lemma register_other_site_unchanged_witness :
  ∃ reg', Survey_init site_B_then_A "A" 3 [] = Some reg'
          ∧ all_surveys reg' !! 0%nat
            = Some {| site := "B"; date := 5; species := []; phen_num := 1 |}.
Proof.
  apply (register_other_site_unchanged site_B_then_A "A" 3 [] 0
           {| site := "B"; date := 5; species := []; phen_num := 1 |}).
  - reflexivity.
  - simpl. discriminate.
Defined.

(** ** The numbering on concrete registrations *)

(** C1, on the registrations of the scenario: site "A" surveyed on
    2020-03-01, 2020-01-01 and 2020-02-01, registered in this order.  The
    third registration searches the unsorted list [03-01; 01-01] by
    bisection, numbers the new survey 3, and lowers the survey of
    2020-01-01 from 1 to 0. *)
Theorem scenario_three_surveys_phen_nums :
  phen_nums <$> register_dates empty_registry "A"
                  [day 2020 3 1; day 2020 1 1]
    = Some [2; 1]
  ∧ phen_nums <$> register_dates empty_registry "A"
                    [day 2020 3 1; day 2020 1 1; day 2020 2 1]
    = Some [3; 0; 3].
Proof. split; vm_compute; reflexivity. Qed.

(** C2, on two registrations in date order: the survey of 2020-01-01, which
    strictly precedes the new one, goes from 1 to 0; and on the scenario,
    where one registered survey precedes 2020-02-01, the new survey is
    numbered 3. *)
Theorem register_lowers_earlier_survey :
  Survey_init
    {| all_surveys :=
         [ {| site := "A"; date := day 2020 1 1; species := [];
              phen_num := 1 |} ];
       survey_dates := [day 2020 1 1] |}
    "A" (day 2020 2 1) []
  = Some {| all_surveys :=
              [ {| site := "A"; date := day 2020 1 1; species := [];
                   phen_num := 0 |};
                {| site := "A"; date := day 2020 2 1; species := [];
                   phen_num := 2 |} ];
            survey_dates := [day 2020 1 1; day 2020 2 1] |}
  ∧ (reg ← register_dates empty_registry "A" [day 2020 3 1; day 2020 1 1];
     fst <$> _calc_num_phenologies reg "A" (day 2020 2 1)) = Some 3.
Proof. split; vm_compute; reflexivity. Qed.

(** C3, on two surveys of one site: registered in date order they hold the
    numbers 0 and 2, and registered with one and the same date they both
    hold 1. *)
Theorem two_surveys_phen_nums_not_dense :
  phen_nums <$> register_dates empty_registry "A"
                  [day 2020 1 1; day 2020 2 1]
    = Some [0; 2]
  ∧ phen_nums <$> register_dates empty_registry "A"
                    [day 2020 1 1; day 2020 1 1]
    = Some [1; 1].
Proof. split; vm_compute; reflexivity. Qed.

(** ** The output path *)

Lemma split_on_free (c : ascii) (s : string) :
  free_of c s → split_on c s = [s].
Proof.
  induction s as [|c' s IH]; [done|]. intros [Hne Hfree]. simpl.
  rewrite decide_False by done. by rewrite IH.
Qed.

Lemma split_on_sep (c : ascii) (s1 s2 : string) :
  free_of c s1 →
  split_on c (s1 +:+ String c s2) = s1 :: split_on c s2.
Proof.
  induction s1 as [|c' s1 IH]; simpl.
  - intros _. by rewrite decide_True.
  - intros [Hne Hfree]. rewrite decide_False by done. by rewrite IH.
Qed.

(** On a path with exactly one dot the suffix goes before the dot. *)
Lemma summarized_path_one_dot (stem ext : string) :
  free_of "." stem → free_of "." ext →
  summarized_path (stem +:+ "." +:+ ext)
  = Some (stem +:+ "_summarized" +:+ "." +:+ ext).
Proof.
  intros Hstem Hext. unfold summarized_path.
  change ("." +:+ ext) with (String "." ext).
  by rewrite split_on_sep, (split_on_free _ ext).
Qed.

(** C9, on paths: [survey.xlsx] gives [survey_summarized.xlsx], while a
    path with a second dot, such as [./survey.xlsx] or [site.2020.xlsx],
    makes the unpacking of [data.split('.')] raise, and no path is
    derived. *)
Theorem summarized_path_examples :
  summarized_path "survey.xlsx" = Some "survey_summarized.xlsx"%string
  ∧ split_on "." "./survey.xlsx" = [""; "/survey"; "xlsx"]%string
  ∧ summarized_path "./survey.xlsx" = None
  ∧ summarized_path "site.2020.xlsx" = None.
Proof. repeat split; vm_compute; reflexivity. Qed.

(** ** The order of [sorted] *)

Lemma ascii_compare_refl (a : ascii) : Ascii.compare a a = Eq.
Proof. unfold Ascii.compare. apply N.compare_refl. Qed.

Lemma ascii_compare_lt_trans (a b c : ascii) :
  Ascii.compare a b = Lt → Ascii.compare b c = Lt → Ascii.compare a c = Lt.
Proof.
  unfold Ascii.compare. rewrite !N.compare_lt_iff. apply N.lt_trans.
Qed.

Lemma string_leb_refl (s : string) : String.leb s s = true.
Proof.
  unfold String.leb. induction s as [|a s IH]; [done|].
  simpl. by rewrite ascii_compare_refl.
Qed.

Lemma string_leb_trans (s1 s2 s3 : string) :
  String.leb s1 s2 = true → String.leb s2 s3 = true →
  String.leb s1 s3 = true.
Proof.
  unfold String.leb. revert s2 s3.
  induction s1 as [|a s1 IH]; intros [|b s2] [|c s3]; simpl; try done.
  destruct (Ascii.compare a b) eqn:Hab; [| |done];
    destruct (Ascii.compare b c) eqn:Hbc; try done.
  - apply Ascii.compare_eq_iff in Hab as ->. rewrite Hbc. apply IH.
  - apply Ascii.compare_eq_iff in Hab as ->. by rewrite Hbc.
  - apply Ascii.compare_eq_iff in Hbc as <-. by rewrite Hab.
  - by rewrite (ascii_compare_lt_trans a b c).
Qed.

#[global] Instance str_le_refl : Reflexive str_le.
Proof. intros s. apply string_leb_refl. Qed.

#[global] Instance str_le_trans : Transitive str_le.
Proof. intros s1 s2 s3. apply string_leb_trans. Qed.

#[global] Instance str_le_total : Total str_le.
Proof. intros s1 s2. apply String.leb_total. Qed.

#[global] Instance str_le_antisymm : AntiSymm (=) str_le.
Proof. intros s1 s2. apply String.leb_antisym. Qed.

Section sorted.
Context {A : Type} (R : relation A) `{!∀ x y, Decision (R x y)}.
Context `{!Reflexive R, !Transitive R, !Total R, !AntiSymm (=) R}.

(** [merge_sort] returns the one ascending rearrangement of its input. *)
Lemma merge_sort_unique (l l' : list A) :
  StronglySorted R l' → l' ≡ₚ l → merge_sort R l = l'.
Proof.
  intros Hs Hp. apply (StronglySorted_unique R).
  - by apply StronglySorted_merge_sort.
  - done.
  - by rewrite merge_sort_Permutation.
Qed.

Lemma StronglySorted_replicate (n : nat) (x : A) :
  StronglySorted R (replicate n x).
Proof.
  induction n as [|n IH]; simpl; constructor; [done|].
  apply Forall_forall. intros y [-> _]%elem_of_replicate. done.
Qed.
End sorted.

(** ** Repetition of lists *)

Section list_mul.
Context {A : Type}.
Implicit Types (l : list A) (n m : nat).

Lemma list_mul_S l n : list_mul l (S n) = l ++ list_mul l n.
Proof. reflexivity. Qed.

Lemma list_mul_add l n m :
  list_mul l (n + m) = list_mul l n ++ list_mul l m.
Proof.
  induction n as [|n IH]; [done|].
  simpl. rewrite !list_mul_S, IH. by rewrite (assoc_L (++)).
Qed.

Lemma list_mul_mul l n m : list_mul (list_mul l n) m = list_mul l (n * m).
Proof.
  induction m as [|m IH].
  - by rewrite Nat.mul_0_r.
  - rewrite list_mul_S, IH, <- list_mul_add. f_equal. lia.
Qed.

Lemma length_list_mul l n : length (list_mul l n) = (n * length l)%nat.
Proof.
  induction n as [|n IH]; [done|].
  rewrite list_mul_S, length_app, IH. lia.
Qed.

Lemma list_mul_pair_Permutation (a b : A) n :
  list_mul [a; b] n ≡ₚ replicate n a ++ replicate n b.
Proof.
  induction n as [|n IH]; [done|].
  rewrite list_mul_S. simpl. rewrite IH.
  constructor. by apply Permutation_cons_app.
Qed.

Lemma list_mul_triple_Permutation (a b c : A) n :
  list_mul [a; b; c] n ≡ₚ replicate n b ++ replicate n a ++ replicate n c.
Proof.
  induction n as [|n IH]; [done|].
  rewrite list_mul_S. simpl. rewrite IH.
  etrans; [apply perm_swap|]. simpl. constructor.
  apply Permutation_cons_app. rewrite !(assoc_L (++)).
  by apply Permutation_cons_app.
Qed.
End list_mul.

(** ** The three axes *)

Lemma sorted_set_spec (l : list string) :
  StronglySorted str_le (sorted_set l)
  ∧ NoDup (sorted_set l)
  ∧ sorted_set l ≡ₚ remove_dups l.
Proof.
  unfold sorted_set, sorted_str.
  pose proof (merge_sort_Permutation str_le (remove_dups l)) as Hp.
  split; [|split].
  - apply (StronglySorted_merge_sort str_le).
  - rewrite Hp. apply NoDup_remove_dups.
  - exact Hp.
Qed.

Lemma length_sorted_set (l : list string) :
  length (sorted_set l) = length (remove_dups l).
Proof. destruct (sorted_set_spec l) as (_ & _ & Hp). by rewrite Hp. Qed.

(** [sorted(VARIABLE_LIST * num_sites * NUM_PHENOLOGIES)] is three blocks in
    alphabetical order. *)
Lemma variables_axis_blocks (n : nat) :
  variables_axis n =
  replicate (n * NUM_PHENOLOGIES) "DF"%string
  ++ replicate (n * NUM_PHENOLOGIES) "DNF"%string
  ++ replicate (n * NUM_PHENOLOGIES) "FU"%string.
Proof.
  unfold variables_axis, sorted_str, VARIABLE_LIST.
  rewrite list_mul_mul. apply (merge_sort_unique str_le).
  - repeat apply StronglySorted_app_2;
      try apply (StronglySorted_replicate str_le).
    + intros x y [-> _]%elem_of_replicate Hy.
      apply elem_of_app in Hy as [[-> _]%elem_of_replicate|[-> _]%elem_of_replicate];
        vm_compute; reflexivity.
    + intros x y [-> _]%elem_of_replicate [-> _]%elem_of_replicate.
      vm_compute; reflexivity.
  - symmetry. apply list_mul_triple_Permutation.
Qed.

(** [sorted(list(range(1, NUM_PHENOLOGIES + 1)) * num_sites)] is the block of
    ones followed by the block of twos. *)
Lemma phenology_axis_blocks (n : nat) :
  phenology_axis n =
  list_mul (replicate n 1 ++ replicate n 2) (length VARIABLE_LIST).
Proof.
  unfold phenology_axis, sorted_int. f_equal. simpl.
  apply (merge_sort_unique Z.le).
  - apply StronglySorted_app_2; try apply (StronglySorted_replicate Z.le).
    intros x y [-> _]%elem_of_replicate [-> _]%elem_of_replicate. lia.
  - symmetry. apply list_mul_pair_Permutation.
Qed.

Lemma length_variables_axis (n : nat) :
  length (variables_axis n)
  = (n * NUM_PHENOLOGIES * length VARIABLE_LIST)%nat.
Proof.
  rewrite variables_axis_blocks, !length_app, !length_replicate.
  unfold NUM_PHENOLOGIES, VARIABLE_LIST. cbn [length]. lia.
Qed.

Lemma length_phenology_axis (n : nat) :
  length (phenology_axis n)
  = (n * NUM_PHENOLOGIES * length VARIABLE_LIST)%nat.
Proof.
  rewrite phenology_axis_blocks, length_list_mul, length_app,
    !length_replicate.
  unfold NUM_PHENOLOGIES, VARIABLE_LIST. cbn [length]. lia.
Qed.

(** ** Writing the sheet *)

Section writers.
Implicit Types (w : World) (r k : nat) (v : value).

Lemma registry_set_nth_cell w cells i v :
  registry (set_nth_cell w cells i v) = registry w.
Proof. unfold set_nth_cell. by destruct (cells !! i). Qed.

Lemma iter_rows_body (n c c' : nat) :
  iter_rows 2 (n + 1) c c' =
  (λ r, (λ k, (r, k)) <$> seq c (c' + 1 - c)) <$> seq 2 n.
Proof. unfold iter_rows. do 2 f_equal. lia. Qed.

Lemma write_first_cells_cons w row rows v (vals : list value) :
  write_first_cells w (row :: rows) (v :: vals)
  = write_first_cells (set_nth_cell w row 0 v) rows vals.
Proof. reflexivity. Qed.

(** One value per row, written to the first cell of the row. *)
Lemma write_first_cells_spec w (m c extra : nat) (vals : list value) :
  let w' := write_first_cells w
              ((λ r, (λ k, (r, k)) <$> seq c (S extra))
                 <$> seq m (length vals)) vals in
  registry w' = registry w
  ∧ ∀ r k, sum_ws w' !! (r, k) =
           if decide (k = c ∧ m ≤ r < m + length vals)%nat
           then vals !! (r - m)%nat else sum_ws w !! (r, k).
Proof.
  revert w m. induction vals as [|v vals IH]; intros w m w'; subst w'.
  - split; [done|]. intros r k. cbn [length] in *. case_decide; [lia|done].
  - cbn [length].
    change (seq m (S (length vals))) with (m :: seq (S m) (length vals)).
    rewrite fmap_cons, write_first_cells_cons.
    destruct (IH (set_nth_cell w ((λ k, (m, k)) <$> seq c (S extra)) 0 v)
                (S m)) as [Hreg Hlk].
    split; [by rewrite Hreg|]. intros r k.
    rewrite Hlk. unfold set_nth_cell.
    cbn [seq fmap list_fmap lookup list_lookup set_cell sum_ws].
    destruct (decide (r = m)) as [->|Hr].
    + rewrite Nat.sub_diag.
      repeat case_decide; try lia.
      * destruct_and!; subst. by rewrite lookup_insert_eq.
      * rewrite lookup_insert_ne; [done|]. intros [=]. lia.
    + rewrite lookup_insert_ne by (intros [=]; lia).
      repeat case_decide; try lia; try done.
      replace (r - m)%nat with (S (r - S m)) by lia. done.
Qed.

(** The loop of [write_summary_headers] stays in the row of its column
    generator. *)
Lemma header_loop_spec (sp : list string) w (gen : list (list (nat * nat))) :
  Forall (λ col : list (nat * nat),
            ∀ cell, col !! 0%nat = Some cell → cell.1 = 1%nat) gen →
  let w' := (foldl (λ st s,
               match st.2 with
               | col :: col_gen' =>
                   (set_nth_cell st.1 col 0 (VStr s), col_gen')
               | [] => (st.1, [])
               end) (w, gen) sp).1 in
  registry w' = registry w
  ∧ ∀ r k, r ≠ 1%nat → sum_ws w' !! (r, k) = sum_ws w !! (r, k).
Proof.
  revert gen w. induction sp as [|s sp IH]; intros gen w Hgen; [done|].
  cbn [foldl]. destruct gen as [|col gen]; cbn [snd fst].
  - apply (IH [] w). constructor.
  - apply Forall_cons in Hgen as [Hcol Hgen].
    destruct (IH gen (set_nth_cell w col 0 (VStr s)) Hgen) as [Hr Hl].
    split; [by rewrite Hr, registry_set_nth_cell|].
    intros r k Hne. rewrite Hl by done.
    unfold set_nth_cell. destruct (col !! 0%nat) as [cell|] eqn:Hc; [|done].
    simpl. apply lookup_insert_ne. intros ->.
    specialize (Hcol _ eq_refl). simpl in Hcol. lia.
Qed.

Lemma iter_cols_row_1 (c c' : nat) :
  Forall (λ col : list (nat * nat),
            ∀ cell, col !! 0%nat = Some cell → cell.1 = 1%nat)
         (iter_cols c c' 1 1).
Proof.
  unfold iter_cols. apply Forall_fmap, Forall_forall.
  intros k _ cell. simpl. by intros [= <-].
Qed.

(** The header writer leaves the rows below the first alone. *)
Lemma write_summary_headers_spec w (sp : list string) :
  let w' := write_summary_headers w sp in
  registry w' = registry w
  ∧ ∀ r k, r ≠ 1%nat → sum_ws w' !! (r, k) = sum_ws w !! (r, k).
Proof.
  unfold write_summary_headers.
  set (w0 := set_cell (set_cell (set_cell w _ _) _ _) _ _).
  destruct (header_loop_spec sp w0 _ (iter_cols_row_1 4 (length sp + 3)))
    as [Hreg Hlk].
  split; [by rewrite Hreg|].
  intros r k Hr. rewrite Hlk by done. unfold w0. simpl.
  rewrite !lookup_insert_ne; [done|..]; intros [=]; lia.
Qed.
(** The loop of [write_summary_headers] writes the names from left to
    right. *)
Lemma header_loop_row_1 (sp : list string) w (m : nat) :
  let w' := (foldl (λ st s,
               match st.2 with
               | col :: col_gen' =>
                   (set_nth_cell st.1 col 0 (VStr s), col_gen')
               | [] => (st.1, [])
               end)
               (w, (λ c, (λ r, (r, c)) <$> seq 1 1) <$> seq m (length sp))
               sp).1 in
  ∀ k, sum_ws w' !! (1%nat, k) =
       if decide (m ≤ k < m + length sp)%nat
       then VStr <$> sp !! (k - m)%nat else sum_ws w !! (1%nat, k).
Proof.
  revert w m. induction sp as [|s sp IH]; intros w m w' k; subst w'.
  - cbn [length foldl fst]. case_decide; [lia|done].
  - cbn [length].
    change (seq m (S (length sp))) with (m :: seq (S m) (length sp)).
    rewrite fmap_cons. cbn [foldl snd fst].
    rewrite (IH (set_nth_cell w ((λ r, (r, m)) <$> seq 1 1) 0 (VStr s))
               (S m)).
    unfold set_nth_cell. cbn [seq fmap list_fmap lookup list_lookup set_cell sum_ws].
    destruct (decide (k = m)) as [->|Hk].
    + rewrite Nat.sub_diag, lookup_insert_eq.
      repeat case_decide; done || lia.
    + rewrite lookup_insert_ne by (intros [=]; lia).
      repeat case_decide; try lia; try done.
      replace (k - m)%nat with (S (k - S m)) by lia. done.
Qed.

Lemma write_summary_headers_row_1 w (sp : list string) (k : nat) :
  (4 ≤ k)%nat →
  sum_ws (write_summary_headers w sp) !! (1%nat, k) =
  if decide (k < 4 + length sp)%nat
  then VStr <$> sp !! (k - 4)%nat else sum_ws w !! (1%nat, k).
Proof.
  intros Hk. unfold write_summary_headers, iter_cols.
  replace (length sp + 3 + 1 - 4)%nat with (length sp) by lia.
  change (1 + 1 - 1)%nat with 1%nat.
  rewrite header_loop_row_1. cbn [set_cell sum_ws].
  rewrite !lookup_insert_ne by (intros [=]; lia).
  repeat case_decide; done || lia.
Qed.

Lemma fill_cell_datum row sn va ph w (idx : nat) (name : string) :
  fill_cell get_all_surveys row sn va ph w (idx, name) =
  match fill_datum (all_surveys (registry w)) sn va ph name with
  | Some datum => set_nth_cell w row (idx + 3) datum
  | None => w
  end.
Proof.
  unfold fill_cell, fill_datum, get_all_surveys.
  destruct (filter _ (all_surveys (registry w))) as [|sv [|? ?]]; try done.
  destruct (filter _ (species sv)) as [|so [|? ?]]; done.
Qed.

Lemma row_cells_lookup r ncols i :
  (i < ncols)%nat → row_cells r ncols !! i = Some (r, S i).
Proof.
  intros Hi. unfold row_cells.
  rewrite list_lookup_fmap, lookup_seq_lt by done. done.
Qed.

Lemma enumerate_snoc {A} (l : list A) (x : A) :
  enumerate (l ++ [x]) = enumerate l ++ [(length l, x)].
Proof.
  unfold enumerate. rewrite imap_app. simpl. by rewrite Nat.add_0_r.
Qed.

(** The inner loop over the species columns, for fixed readings of the
    first three cells of the row. *)
Lemma fill_cells_spec (r extra : nat) sn va ph (sp : list string) w :
  let row := row_cells r (length sp + 3 + extra) in
  let w' := foldl (fill_cell get_all_surveys row sn va ph) w (enumerate sp) in
  registry w' = registry w
  ∧ ∀ r' k, sum_ws w' !! (r', k) =
      match sp !! (k - 4)%nat with
      | Some name =>
          match fill_datum (all_surveys (registry w)) sn va ph name with
          | Some datum =>
              if decide (r' = r ∧ 4 ≤ k)%nat then Some datum
              else sum_ws w !! (r', k)
          | None => sum_ws w !! (r', k)
          end
      | None => sum_ws w !! (r', k)
      end.
Proof.
  revert extra. induction sp as [|name sp IH] using rev_ind; intros extra.
  - simpl. split; [done|]. by intros r' k.
  - intros row w'. subst row w'.
    rewrite enumerate_snoc, foldl_app. cbn [foldl].
    rewrite length_app. cbn [length].
    replace (length sp + 1 + 3 + extra)%nat
      with (length sp + 3 + S extra)%nat by lia.
    destruct (IH (S extra)) as [Hreg Hlk].
    set (row := row_cells r (length sp + 3 + S extra)) in *.
    set (w1 := foldl (fill_cell get_all_surveys row sn va ph) w (enumerate sp)) in *.
    rewrite fill_cell_datum, Hreg.
    destruct (fill_datum (all_surveys (registry w)) sn va ph name)
      as [datum|] eqn:Hd.
    + unfold set_nth_cell, row.
      rewrite row_cells_lookup by lia.
      split; [done|]. intros r' k. cbn [set_cell sum_ws].
      destruct (decide (r' = r ∧ k = S (length sp + 3))%nat)
        as [[-> ->]|Hne].
      * rewrite lookup_insert_eq.
        replace (S (length sp + 3) - 4)%nat with (length sp) by lia.
        rewrite list_lookup_middle by done. rewrite Hd.
        rewrite decide_True by lia. done.
      * rewrite lookup_insert_ne by (intros [=]; lia).
        rewrite Hlk.
        destruct (decide (k - 4 < length sp)%nat) as [Hlt|Hge].
        -- by rewrite lookup_app_l by done.
        -- rewrite (lookup_ge_None_2 sp) by lia.
           destruct (decide (k - 4 = length sp)%nat) as [Heq|Hne'].
           ++ rewrite Heq, list_lookup_middle by done. rewrite Hd.
              rewrite decide_False by lia. done.
           ++ rewrite lookup_ge_None_2; [done|].
              rewrite length_app. simpl. lia.
    + split; [done|]. intros r' k. rewrite Hlk.
      destruct (decide (k - 4 < length sp)%nat) as [Hlt|Hge].
      * by rewrite lookup_app_l by done.
      * rewrite (lookup_ge_None_2 sp) by lia.
        destruct (decide (k - 4 = length sp)%nat) as [Heq|Hne'].
        -- rewrite Heq, list_lookup_middle by done. by rewrite Hd.
        -- rewrite lookup_ge_None_2; [done|].
           rewrite length_app. simpl. lia.
Qed.
Lemma filled_left survey_list ws sp lo hi r k :
  (k < 4)%nat → filled survey_list ws sp lo hi r k = ws !! (r, k).
Proof.
  intros Hk. unfold filled. destruct (sp !! _); [|done].
  destruct (fill_datum _ _ _ _ _); [|done].
  by rewrite decide_False by lia.
Qed.

Lemma filled_outside survey_list ws sp lo hi r k :
  ¬ (lo ≤ r < hi)%nat → filled survey_list ws sp lo hi r k = ws !! (r, k).
Proof.
  intros Hr. unfold filled. destruct (sp !! _); [|done].
  destruct (fill_datum _ _ _ _ _); [|done].
  by rewrite decide_False by lia.
Qed.

Lemma fill_row_spec (r : nat) (sp : list string) w :
  let w' := fill_row get_all_surveys sp w (row_cells r (length sp + 3)) in
  registry w' = registry w
  ∧ ∀ r' k, sum_ws w' !! (r', k) =
            filled (all_surveys (registry w)) (sum_ws w) sp r (S r) r' k.
Proof.
  unfold fill_row, nth_cell_value.
  rewrite !row_cells_lookup by lia.
  pose proof (fill_cells_spec r 0 (cell_value (sum_ws w) (r, 1%nat))
                (cell_value (sum_ws w) (r, 2%nat))
                (cell_value (sum_ws w) (r, 3%nat)) sp w) as [Hreg Hlk].
  rewrite Nat.add_0_r in Hreg, Hlk.
  split; [exact Hreg|]. intros r' k. rewrite Hlk. unfold filled.
  destruct (sp !! (k - 4)%nat) as [name|]; [|done].
  destruct (decide (r' = r)) as [->|Hne].
  - destruct (fill_datum _ _ _ _ _); [|done].
    repeat case_decide; done || lia.
  - destruct (fill_datum _ _ _ _ name);
      destruct (fill_datum _ _ _ _ name); try done;
      repeat case_decide; done || lia.
Qed.

(** The outer loop over the body rows. *)
Lemma fill_rows_spec (sp : list string) (n m : nat) w :
  let w' := foldl (fill_row get_all_surveys sp) w
              ((λ r, row_cells r (length sp + 3)) <$> seq m n) in
  registry w' = registry w
  ∧ ∀ r k, sum_ws w' !! (r, k) =
           filled (all_surveys (registry w)) (sum_ws w) sp m (m + n) r k.
Proof.
  revert m w. induction n as [|n IH]; intros m w.
  - simpl. split; [done|]. intros r k.
    by rewrite filled_outside by lia.
  - cbn [seq]. rewrite fmap_cons. cbn [foldl].
    destruct (fill_row_spec m sp w) as [Hreg1 Hlk1].
    set (w1 := fill_row get_all_surveys sp w (row_cells m (length sp + 3))) in *.
    destruct (IH (S m) w1) as [Hreg Hlk].
    split; [by rewrite Hreg|]. intros r k.
    rewrite Hlk, Hreg1. unfold filled at 1. unfold cell_value.
    rewrite !Hlk1, !filled_left by lia.
    unfold filled, cell_value.
    destruct (sp !! (k - 4)%nat) as [name|]; [|done].
    destruct (fill_datum _ _ _ _ _); [|done].
    repeat case_decide; done || lia.
Qed.

Lemma write_data_to_rows_spec w (num_sites : nat) (sp : list string) :
  let w' := write_data_to_rows w get_all_surveys num_sites sp in
  let num_rows := (num_sites * NUM_PHENOLOGIES * length VARIABLE_LIST)%nat in
  registry w' = registry w
  ∧ ∀ r k, sum_ws w' !! (r, k) =
           filled (all_surveys (registry w)) (sum_ws w) sp
                  2 (2 + num_rows) r k.
Proof.
  unfold write_data_to_rows. rewrite iter_rows_body.
  replace (length sp + 3 + 1 - 1)%nat with (length sp + 3)%nat by lia.
  apply fill_rows_spec.
Qed.
End writers.

(** ** The summary pass as a whole *)

Section summary.
Variable acc : Ingested.

Let species_ids := sorted_set (id <$> all_species acc).
Let sites := sorted_set (all_sites acc).
Let n := length sites.
Let N := (n * NUM_PHENOLOGIES * length VARIABLE_LIST)%nat.
Let site_axis :=
  list_mul sites (length VARIABLE_LIST * NUM_PHENOLOGIES).

Lemma summarize_axes_written :
  summarize acc =
write_data_to_rows (axes_written acc) get_all_surveys n species_ids.
Proof. reflexivity. Qed.

Lemma length_site_axis : length site_axis = N.
Proof. unfold site_axis, N, n. rewrite length_list_mul. lia. Qed.

Lemma write_column_spec (w : World) (c c' extra : nat) (vals : list value) :
  (c' + 1 - c = S extra)%nat →
  let w' := write_first_cells w (iter_rows 2 (length vals + 1) c c') vals in
  registry w' = registry w
  ∧ ∀ r k, sum_ws w' !! (r, k) =
           if decide (k = c ∧ 2 ≤ r < 2 + length vals)%nat
           then vals !! (r - 2)%nat else sum_ws w !! (r, k).
Proof.
  intros Hc. rewrite iter_rows_body, Hc. apply write_first_cells_spec.
Qed.

(** The sheet before the data fill: the three axis columns, and nothing
    else below the header. *)
Lemma axes_written_spec :
  registry (axes_written acc) = surveys acc
  ∧ ∀ r k, r ≠ 1%nat →
      sum_ws (axes_written acc) !! (r, k) =
      if decide (2 ≤ r < 2 + N)%nat then
        match k with
        | 1%nat => VStr <$> site_axis !! (r - 2)%nat
        | 2%nat => VStr <$> variables_axis n !! (r - 2)%nat
        | 3%nat => VInt <$> phenology_axis n !! (r - 2)%nat
        | _ => None
        end
      else None.
Proof.
  unfold axes_written.
  fold species_ids. fold sites. fold n.
  set (w0 := {| registry := surveys acc; sum_ws := ∅ |}).
  destruct (write_summary_headers_spec w0 species_ids) as [Hr1 Hl1].
  set (w1 := write_summary_headers w0 species_ids) in *.
  unfold write_sites_to_rows, write_variables_to_rows,
    write_phenology_to_rows.
  fold site_axis.
  rewrite <- (length_fmap VStr site_axis).
  rewrite <- (length_fmap VStr (variables_axis n)).
  rewrite <- (length_fmap VInt (phenology_axis n)).
  destruct (write_column_spec w1 1 1 0 (VStr <$> site_axis) eq_refl)
    as [Hr2 Hl2].
  set (w2 := write_first_cells w1 _ (VStr <$> site_axis)) in *.
  destruct (write_column_spec w2 2 3 1 (VStr <$> variables_axis n) eq_refl)
    as [Hr3 Hl3].
  set (w3 := write_first_cells w2 _ (VStr <$> variables_axis n)) in *.
  destruct (write_column_spec w3 3 4 1 (VInt <$> phenology_axis n) eq_refl)
    as [Hr4 Hl4].
  set (w4 := write_first_cells w3 _ (VInt <$> phenology_axis n)) in *.
  split; [by rewrite Hr4, Hr3, Hr2, Hr1|].
  intros r k Hr. rewrite Hl4, Hl3, Hl2, Hl1 by done.
  rewrite !length_fmap, length_site_axis, length_variables_axis,
    length_phenology_axis. fold N.
  rewrite !list_lookup_fmap. unfold w0. cbn [sum_ws].
  rewrite lookup_empty.
  destruct (decide (2 ≤ r < 2 + N)%nat).
  - destruct k as [|[|[|[|k]]]]; repeat case_decide; done || lia.
  - repeat case_decide; done || lia.
Qed.

Lemma summarize_registry : registry (summarize acc) = surveys acc.
Proof.
  rewrite summarize_axes_written.
  destruct (write_data_to_rows_spec (axes_written acc) n species_ids)
    as [-> _].
  apply axes_written_spec.
Qed.

(** The axis columns survive the data fill. *)
Lemma summarize_axis_cell (i c : nat) :
  (i < N)%nat → (1 ≤ c ≤ 3)%nat →
  sum_ws (summarize acc) !! ((2 + i)%nat, c) =
  match c with
  | 1%nat => VStr <$> site_axis !! i
  | 2%nat => VStr <$> variables_axis n !! i
  | _ => VInt <$> phenology_axis n !! i
  end.
Proof.
  intros Hi Hc. rewrite summarize_axes_written.
  destruct (write_data_to_rows_spec (axes_written acc) n species_ids)
    as [_ ->].
  rewrite filled_left by lia.
  destruct axes_written_spec as [_ ->]; [|lia].
  fold N. rewrite decide_True by lia.
  replace (2 + i - 2)%nat with i by lia.
  destruct c as [|[|[|[|c]]]]; done || lia.
Qed.


(** A data cell holds what the fill computes from the axis cells of its
    row, or stays blank. *)
Lemma summarize_data_cell (i j : nat) (name : string) :
  (i < N)%nat → species_ids !! j = Some name →
  let ws := sum_ws (summarize acc) in
  ws !! ((2 + i)%nat, (4 + j)%nat) =
  fill_datum (all_surveys (surveys acc))
    (cell_value ws ((2 + i)%nat, 1%nat))
    (cell_value ws ((2 + i)%nat, 2%nat))
    (cell_value ws ((2 + i)%nat, 3%nat)) name.
Proof.
  intros Hi Hj ws. subst ws. rewrite summarize_axes_written.
  destruct (write_data_to_rows_spec (axes_written acc) n species_ids)
    as [_ Hlk].
  unfold cell_value. rewrite !Hlk.
  rewrite (filled_left _ _ _ _ _ _ 1), (filled_left _ _ _ _ _ _ 2),
    (filled_left _ _ _ _ _ _ 3) by lia.
  unfold filled. replace (4 + j - 4)%nat with j by lia. rewrite Hj.
  destruct axes_written_spec as [-> Hax]. unfold cell_value.
  destruct (fill_datum _ _ _ _ _) as [datum|].
  - fold N. by rewrite decide_True by lia.
  - rewrite Hax by lia. by case_decide.
Qed.
(** The header of a species column. *)
Lemma summarize_header_cell (j : nat) :
  sum_ws (summarize acc) !! (1%nat, (4 + j)%nat) =
  VStr <$> species_ids !! j.
Proof.
  rewrite summarize_axes_written.
  destruct (write_data_to_rows_spec (axes_written acc) n species_ids)
    as [_ ->].
  rewrite filled_outside by lia.
  unfold axes_written. fold species_ids. fold sites. fold n.
  set (w0 := {| registry := surveys acc; sum_ws := ∅ |}).
  set (w1 := write_summary_headers w0 species_ids).
  unfold write_sites_to_rows, write_variables_to_rows,
    write_phenology_to_rows.
  fold site_axis.
  rewrite <- (length_fmap VStr site_axis).
  rewrite <- (length_fmap VStr (variables_axis n)).
  rewrite <- (length_fmap VInt (phenology_axis n)).
  destruct (write_column_spec w1 1 1 0 (VStr <$> site_axis) eq_refl)
    as [_ Hl2].
  set (w2 := write_first_cells w1 _ (VStr <$> site_axis)) in *.
  destruct (write_column_spec w2 2 3 1 (VStr <$> variables_axis n) eq_refl)
    as [_ Hl3].
  set (w3 := write_first_cells w2 _ (VStr <$> variables_axis n)) in *.
  destruct (write_column_spec w3 3 4 1 (VInt <$> phenology_axis n) eq_refl)
    as [_ Hl4].
  rewrite Hl4, Hl3, Hl2, !decide_False by lia.
  unfold w1. rewrite write_summary_headers_row_1 by lia.
  replace (4 + j - 4)%nat with j by lia.
  case_decide; [done|].
  unfold w0. cbn [sum_ws].
  rewrite lookup_empty, lookup_ge_None_2; [done|lia].
Qed.
End summary.

(** ** Ingestion *)

Lemma ingest_spec (wb : list Sheet) (acc : Ingested) :
  ∃ acc', ingest acc wb = Some acc'
          ∧ all_sites acc' = all_sites acc ++ (B2 <$> wb)
          ∧ all_species acc' = all_species acc ++ (wb ≫= get_survey_species).
Proof.
  revert acc. induction wb as [|sheet wb IH]; intros acc.
  - exists acc. simpl. by rewrite !app_nil_r.
  - simpl. unfold ingest_sheet.
    destruct (Survey_init_total (surveys acc) (get_site_name sheet)
                (get_survey_date sheet) (get_survey_species sheet))
      as [reg ->].
    simpl. destruct (IH {| all_species := all_species acc ++ get_survey_species sheet;
                           all_sites := all_sites acc ++ [get_site_name sheet];
                           surveys := reg |}) as (acc' & -> & Hs & Hsp).
    exists acc'. split; [done|]. simpl in Hs, Hsp.
    rewrite Hs, Hsp, <- !(assoc_L (++)). done.
Qed.

(** [main] runs to the end of the summary pass on every workbook. *)
Lemma main_spec (wb : list Sheet) :
  ∃ acc, ingest no_sheets wb = Some acc
         ∧ main wb = Some (summarize acc)
         ∧ all_sites acc = B2 <$> wb
         ∧ all_species acc = wb ≫= get_survey_species.
Proof.
  destruct (ingest_spec wb no_sheets) as (acc & Hi & Hs & Hsp).
  exists acc. unfold main. rewrite Hi. done.
Qed.

Lemma registry_write_first_cells (w : World) rows (vals : list value) :
  registry (write_first_cells w rows vals) = registry w.
Proof.
  unfold write_first_cells. generalize (zip rows vals). intros l.
  revert w. induction l as [|p l IH]; intros w; [done|].
  simpl. by rewrite IH, registry_set_nth_cell.
Qed.

(** ** The summary sheet *)






Lemma fill_datum_values (survey_list : list Survey) (X V Y : string) (K : Z) :
  fill_datum survey_list (VStr X) (VStr V) (VInt K) Y =
  match filter (λ sv, site sv = X ∧ phen_num sv = K) survey_list with
  | [sv] =>
      match filter (λ sp, id sp = Y) (species sv) with
      | [sp] =>
          Some (if decide (V = "DNF"%string) then dnf sp
                else if decide (V = "DF"%string) then df sp
                else if decide (V = "FU"%string) then fu sp
                else VNone)
      | _ => None
      end
  | _ => None
  end.
Proof.
  unfold fill_datum.
  rewrite (list_filter_iff _ (λ sv, site sv = X ∧ phen_num sv = K)).
  2: { intros sv. split; [intros [[= ?] [= ?]]|intros [-> ->]]; done. }
  destruct (filter _ survey_list) as [|sv [|? ?]]; try done.
  destruct (filter _ (species sv)) as [|sp [|? ?]]; try done.
  f_equal. repeat case_decide; congruence.
Qed.

(** C7: in the Summary sheet produced by [main], take a body row whose
    axis cells read site X, variable V and phenology K, and the column
    headed by the species Y.  V is one of "DNF", "DF", "FU".  If exactly one
    registered survey has site X and [phen_num] K and exactly one of its
    species records is named Y, the cell holds the field of that record
    selected by V; if the surveys matching are none or several, or the
    records matching are none or several, the cell is blank. *)
Theorem summary_fill (wb : list Sheet) (w : World) (i j : nat)
    (X V Y : string) (K : Z) :
  main wb = Some w →
  (i < length (remove_dups (B2 <$> wb)) * 3 * 2)%nat →
  cell_value (sum_ws w) (1%nat, (4 + j)%nat) = VStr Y →
  cell_value (sum_ws w) ((2 + i)%nat, 1%nat) = VStr X →
  cell_value (sum_ws w) ((2 + i)%nat, 2%nat) = VStr V →
  cell_value (sum_ws w) ((2 + i)%nat, 3%nat) = VInt K →
  let cell := cell_value (sum_ws w) ((2 + i)%nat, (4 + j)%nat) in
  let matching :=
    filter (λ sv, site sv = X ∧ phen_num sv = K) (all_surveys (registry w)) in
  V ∈ VARIABLE_LIST
  ∧ (∀ sv sp, matching = [sv] →
              filter (λ sp, id sp = Y) (species sv) = [sp] →
              (V = "DNF"%string → cell = dnf sp)
              ∧ (V = "DF"%string → cell = df sp)
              ∧ (V = "FU"%string → cell = fu sp))
  ∧ (length matching ≠ 1%nat → cell = VNone)
  ∧ (∀ sv, matching = [sv] →
           length (filter (λ sp, id sp = Y) (species sv)) ≠ 1%nat →
           cell = VNone).
Proof.
  intros Hmain Hi HY HX HV HK cell matching.
  destruct (main_spec wb) as (acc & _ & Hmain' & Hsites & Hspecies).
  rewrite Hmain in Hmain'. injection Hmain' as ->.
  assert (sorted_set (id <$> all_species acc) !! j = Some Y) as Hj.
  { unfold cell_value in HY. rewrite summarize_header_cell in HY.
    destruct (sorted_set _ !! j); simpl in HY; congruence. }
  assert (i < length (sorted_set (all_sites acc)) * NUM_PHENOLOGIES
              * length VARIABLE_LIST)%nat as Hi'.
  { rewrite Hsites, length_sorted_set.
    unfold NUM_PHENOLOGIES, VARIABLE_LIST. cbn [length]. lia. }
  assert (cell = default VNone
                   (fill_datum (all_surveys (registry (summarize acc)))
                      (VStr X) (VStr V) (VInt K) Y)) as Hcell.
  { unfold cell, cell_value at 1.
    rewrite (summarize_data_cell acc i j Y Hi' Hj).
    by rewrite HX, HV, HK, summarize_registry. }
  rewrite fill_datum_values in Hcell. fold matching in Hcell.
  split_and!.
  - pose proof (summarize_axis_cell acc i 2 Hi') as Hc.
    unfold cell_value in HV. rewrite Hc in HV by lia.
    rewrite variables_axis_blocks in HV.
    destruct ((_ ++ _) !! i) as [V'|] eqn:Hl; [|done].
    injection HV as ->. apply list_elem_of_lookup_2 in Hl.
    unfold VARIABLE_LIST.
    rewrite !elem_of_app, !elem_of_replicate in Hl.
    destruct Hl as [[-> _]|[[-> _]|[-> _]]]; repeat constructor.
  - intros sv sp Hsv Hsp. rewrite Hsv, Hsp in Hcell. simpl in Hcell.
    split_and!; intros ->; rewrite Hcell; reflexivity.
  - intros Hlen. rewrite Hcell.
    destruct matching as [|sv [|? ?]]; done.
  - intros sv Hsv Hlen. rewrite Hsv in Hcell. rewrite Hcell.
    destruct (filter _ (species sv)) as [|sp [|? ?]]; done.
Qed.

Lemma summary_fill_witness :
  main example_wb = Some example_world
  ∧ cell_value (sum_ws example_world) (1, 4)%nat = VStr "grass"
  ∧ cell_value (sum_ws example_world) (3, 1)%nat = VStr "B"
  ∧ cell_value (sum_ws example_world) (3, 2)%nat = VStr "DF"
  ∧ cell_value (sum_ws example_world) (3, 3)%nat = VInt 1
  ∧ cell_value (sum_ws example_world) (3, 4)%nat = VInt 12
  ∧ cell_value (sum_ws example_world) (2, 4)%nat = VNone.
Proof.
  assert (main example_wb = Some example_world) as Hm
    by (vm_compute; reflexivity).
  assert (cell_value (sum_ws example_world) (3, 1)%nat = VStr "B") as HX
    by (vm_compute; reflexivity).
  assert (cell_value (sum_ws example_world) (3, 2)%nat = VStr "DF") as HV
    by (vm_compute; reflexivity).
  assert (cell_value (sum_ws example_world) (3, 3)%nat = VInt 1) as HK
    by (vm_compute; reflexivity).
  assert (cell_value (sum_ws example_world) (1, 4)%nat = VStr "grass") as HY
    by (vm_compute; reflexivity).
  assert (cell_value (sum_ws example_world) (2, 1)%nat = VStr "A") as HX'
    by (vm_compute; reflexivity).
  assert (cell_value (sum_ws example_world) (2, 2)%nat = VStr "DF") as HV'
    by (vm_compute; reflexivity).
  assert (cell_value (sum_ws example_world) (2, 3)%nat = VInt 1) as HK'
    by (vm_compute; reflexivity).
  split; [exact Hm|]. split; [exact HY|]. split; [exact HX|].
  split; [exact HV|]. split; [exact HK|]. split.
  - pose proof (summary_fill example_wb example_world 1 0 "B" "DF" "grass" 1
                  Hm ltac:(vm_compute; lia) HY HX HV HK) as (_ & Hfill & _).
    destruct (Hfill
                {| site := "B"; date := day 2020 2 1;
                   species := [ {| id := "grass"; dnf := VInt 11;
                                   df := VInt 12; fu := VInt 13 |} ];
                   phen_num := 1 |}
                {| id := "grass"; dnf := VInt 11; df := VInt 12;
                   fu := VInt 13 |}
                ltac:(vm_compute; reflexivity) ltac:(vm_compute; reflexivity))
      as (_ & Hdf & _).
    exact (Hdf eq_refl).
  - pose proof (summary_fill example_wb example_world 0 0 "A" "DF" "grass" 1
                  Hm ltac:(vm_compute; lia) HY HX' HV' HK')
      as (_ & _ & _ & Hnone).
    apply (Hnone {| site := "A"; date := day 2020 7 1;
                    species := [ {| id := "oak"; dnf := VInt 9;
                                    df := VInt 8; fu := VInt 7 |} ];
                    phen_num := 1 |});
      vm_compute; [reflexivity|lia].
Defined.

(** C10: none of the writers of the summary pass touches the registry, and
    after [main] the registry is the one ingestion left: [all_surveys], with
    every survey's site, date, species and [phen_num], and
    [survey_dates]. *)
Theorem summary_pass_preserves_registry :
  (∀ w sp, registry (write_summary_headers w sp) = registry w)
  ∧ (∀ w site_names, registry (write_sites_to_rows w site_names) = registry w)
  ∧ (∀ w n, registry (write_variables_to_rows w n) = registry w)
  ∧ (∀ w n, registry (write_phenology_to_rows w n) = registry w)
  ∧ (∀ w n sp,
       registry (write_data_to_rows w get_all_surveys n sp) = registry w)
  ∧ (∀ wb, ∃ acc w, ingest no_sheets wb = Some acc
                    ∧ main wb = Some w
                    ∧ registry w = surveys acc).
Proof.
  split_and!.
  - intros w sp. apply write_summary_headers_spec.
  - intros w site_names. apply registry_write_first_cells.
  - intros w n. apply registry_write_first_cells.
  - intros w n. apply registry_write_first_cells.
  - intros w n sp. apply write_data_to_rows_spec.
  - intros wb. destruct (main_spec wb) as (acc & Hi & Hm & _).
    exists acc, (summarize acc). split_and!; try done.
    apply summarize_registry.
Qed.

(** * Further properties of the registry *)

Lemma set_phen_num_fields (f : Z → Z) (o : Survey) :
  unnumbered (set_phen_num f o) = unnumbered o.
Proof. reflexivity. Qed.

Lemma renumber_fields (s : string) (d : Z) (o : Survey) :
  unnumbered (renumber s d o) = unnumbered o.
Proof. unfold renumber. by case_decide. Qed.

Lemma renumber_site (s : string) (d : Z) (o : Survey) :
  site (renumber s d o) = site o.
Proof. unfold renumber. by case_decide. Qed.

Lemma renumber_date (s : string) (d : Z) (o : Survey) :
  date (renumber s d o) = date o.
Proof. unfold renumber. by case_decide. Qed.

Lemma index_lt_length (a : list Z) (x : Z) (k : nat) :
  index a x = Some k → (k < length a)%nat.
Proof.
  revert k. induction a as [|y a IH]; intros k; [done|]. simpl.
  destruct (decide (y = x)); [intros [= <-]; lia|].
  destruct (index a x) as [k'|]; [|done]. intros [= <-].
  specialize (IH k' eq_refl). lia.
Qed.

(** The whole of [all_surveys] after a construction: every registered survey
    renumbered in place, then the new survey. *)
Lemma Survey_init_all_surveys (reg reg' : Registry) (s : string) (d : Z)
    (sp : list Species) :
  Survey_init reg s d sp = Some reg' →
  ∃ k, index (insort (get_dates_site_surveyed (all_surveys reg) s) d) d
       = Some k
       ∧ all_surveys reg' =
         (renumber s d <$> all_surveys reg)
         ++ [ {| site := s; date := d; species := sp;
                 phen_num := Z.of_nat k + 1 |} ].
Proof.
  intros Hinit.
  destruct (Survey_init_new _ _ _ _ _ Hinit) as (k & Hk & Hnew).
  exists k. split; [done|]. apply list_eq. intros i.
  pose proof (Survey_init_length _ _ _ _ _ Hinit) as Hlen.
  destruct (decide (i < length (all_surveys reg))%nat) as [Hi|Hi].
  - rewrite lookup_app_l by (by rewrite length_fmap).
    rewrite list_lookup_fmap.
    destruct (lookup_lt_is_Some_2 (all_surveys reg) i Hi) as [o Ho].
    rewrite Ho. simpl. unfold renumber.
    destruct (decide (site o = s)) as [Hs|Hs].
    + by apply (Survey_init_lookup_same_site reg reg' s d sp).
    + by apply (Survey_init_lookup_other reg reg' s d sp).
  - destruct (decide (i = length (all_surveys reg))) as [->|Hne].
    + rewrite Hnew, lookup_app_r by (by rewrite length_fmap).
      by rewrite length_fmap, Nat.sub_diag.
    + rewrite !lookup_ge_None_2; [done|..].
      * rewrite length_app, length_fmap. simpl. lia.
      * lia.
Qed.

Lemma Survey_init_survey_dates (reg reg' : Registry) (s : string) (d : Z)
    (sp : list Species) :
  Survey_init reg s d sp = Some reg' →
  survey_dates reg' =
  if decide (d ∈ survey_dates reg) then survey_dates reg
  else insort (survey_dates reg) d.
Proof.
  unfold Survey_init, _calc_num_phenologies. intros Hinit.
  destruct (index _ d) as [k|]; [|done]. simpl in Hinit.
  by injection Hinit as <-.
Qed.

Lemma filter_fmap_comm {A} (P : A → Prop) `{!∀ x, Decision (P x)}
    (f : A → A) (l : list A) :
  (∀ x, P (f x) ↔ P x) → filter P (f <$> l) = f <$> filter P l.
Proof.
  intros HP. induction l as [|x l IH]; [done|].
  rewrite fmap_cons, !filter_cons.
  destruct (decide (P x)) as [Hx|Hx].
  - rewrite decide_True by (by apply HP). by rewrite fmap_cons, IH.
  - rewrite decide_False by (by rewrite HP). done.
Qed.

Lemma get_dates_site_surveyed_site_surveys (reg : Registry) (s : string) :
  get_dates_site_surveyed (all_surveys reg) s = date <$> site_surveys s reg.
Proof.
  unfold get_dates_site_surveyed, site_surveys. f_equal.
  apply list_filter_iff. intros o. split; congruence.
Qed.

(** What a construction does to the surveys of one site. *)
Lemma site_surveys_Survey_init (reg reg' : Registry) (s s' : string) (d : Z)
    (sp : list Species) :
  Survey_init reg s' d sp = Some reg' →
  if decide (s' = s) then
    ∃ k, index (insort (date <$> site_surveys s reg) d) d = Some k
         ∧ site_surveys s reg' =
           (shift d <$> site_surveys s reg)
           ++ [ {| site := s; date := d; species := sp;
                   phen_num := Z.of_nat k + 1 |} ]
  else site_surveys s reg' = site_surveys s reg.
Proof.
  intros Hinit.
  destruct (Survey_init_all_surveys _ _ _ _ _ Hinit) as (k & Hk & Hall).
  assert (site_surveys s reg' =
          (renumber s' d <$> site_surveys s reg)
          ++ filter (λ o, site o = s)
               [ {| site := s'; date := d; species := sp;
                    phen_num := Z.of_nat k + 1 |} ]) as Hsite.
  { unfold site_surveys. rewrite Hall, filter_app.
    by rewrite filter_fmap_comm by (intros o; by rewrite renumber_site). }
  rewrite Hsite. clear Hsite Hall.
  destruct (decide (s' = s)) as [->|Hne].
  - exists k. rewrite <- get_dates_site_surveyed_site_surveys.
    split; [done|]. rewrite filter_cons, decide_True by done.
    rewrite filter_nil. f_equal.
    apply list_fmap_ext. intros i o Ho.
    apply list_elem_of_lookup_2, list_elem_of_filter in Ho as [Hs _].
    unfold renumber. by rewrite decide_True.
  - rewrite filter_cons, decide_False by (simpl; congruence).
    rewrite filter_nil, app_nil_r.
    rewrite <- (list_fmap_id (site_surveys s reg)) at 2.
    apply list_fmap_ext. intros i o Ho.
    apply list_elem_of_lookup_2, list_elem_of_filter in Ho as [Hs _].
    unfold renumber. rewrite decide_False; [done|congruence].
Qed.

Lemma bisect_loop_all_greater (a : list Z) (x : Z) (f hi : nat) :
  Forall (λ y, x < y) a → (hi ≤ length a)%nat →
  bisect_loop f a x 0 hi = 0%nat.
Proof.
  intros Hall. revert hi. induction f as [|f IH]; intros hi Hhi; [done|].
  rewrite bisect_loop_S. destruct (decide (0 < hi)%nat) as [Hlt|]; [|done].
  pose proof (bisect_mid_bounds 0 hi Hlt) as Hmid.
  destruct (lookup_lt_is_Some_2 a ((0 + hi) / 2)%nat) as [am Ham]; [lia|].
  rewrite Ham. rewrite Forall_lookup in Hall.
  rewrite decide_True by (by eapply Hall). apply IH. lia.
Qed.

(** A value below every element, sorted or not, is inserted in front. *)
Lemma insort_all_greater (a : list Z) (x : Z) :
  Forall (λ y, x < y) a → insort a x = x :: a.
Proof.
  intros Hall. unfold insort, bisect_right.
  by rewrite bisect_loop_all_greater.
Qed.

Lemma shift_later (d : Z) (o : Survey) :
  d < date o → shift d o = set_phen_num (λ n, n + 1) o.
Proof.
  intros Hd. unfold shift, set_phen_num. f_equal.
  rewrite decide_False, decide_True by lia. done.
Qed.

Lemma shift_earlier (d : Z) (o : Survey) :
  date o < d → shift d o = set_phen_num (λ n, n - 1) o.
Proof.
  intros Hd. unfold shift, set_phen_num. f_equal.
  by rewrite decide_True by lia.
Qed.

(** X3: a construction for site [s] at date [d] always returns, and a
    registered survey of site [s] keeps its place, site, date and species
    while its number goes down by one when its date is before [d], up by
    one when its date is after [d], and stays when the dates are equal. *)
Theorem registration_renumbers_siblings (reg : Registry) (s : string)
    (d : Z) (sp : list Species) (i : nat) (o : Survey) :
  all_surveys reg !! i = Some o → site o = s →
  ∃ reg' o',
    Survey_init reg s d sp = Some reg'
    ∧ all_surveys reg' !! i = Some o'
    ∧ unnumbered o' = unnumbered o
    ∧ phen_num o' =
      phen_num o + (if decide (date o < d) then -1
                    else if decide (date o > d) then 1 else 0).
Proof.
  intros Hl Hs. destruct (Survey_init_total reg s d sp) as [reg' Hinit].
  exists reg', (shift d o). split; [done|]. split.
  - by apply (Survey_init_lookup_same_site reg reg' s d sp).
  - split; [done|]. unfold shift. simpl. repeat case_decide; lia.
Qed.

Lemma registration_renumbers_siblings_witness :
  ∃ reg' o',
    Survey_init site_B_then_A "A" 3 [] = Some reg'
    ∧ all_surveys reg' !! 1%nat = Some o'
    ∧ unnumbered o' = ("A"%string, 9, [])
    ∧ phen_num o' = 2.
Proof.
  apply (registration_renumbers_siblings site_B_then_A "A" 3 [] 1
           {| site := "A"; date := 9; species := []; phen_num := 1 |});
    reflexivity.
Defined.

(** X4: the survey under construction is appended last, with the site, date
    and species it was given, and its number lies between 1 and one more
    than the count of registered surveys of its site. *)
Theorem new_survey_number_bounds (reg : Registry) (s : string) (d : Z)
    (sp : list Species) :
  ∃ reg' new,
    Survey_init reg s d sp = Some reg'
    ∧ all_surveys reg' = (renumber s d <$> all_surveys reg) ++ [new]
    ∧ unnumbered new = (s, d, sp)
    ∧ 1 ≤ phen_num new ≤ Z.of_nat (length (site_surveys s reg)) + 1.
Proof.
  destruct (Survey_init_total reg s d sp) as [reg' Hinit].
  destruct (Survey_init_all_surveys _ _ _ _ _ Hinit) as (k & Hk & Hall).
  exists reg'. eexists. split; [done|]. split; [exact Hall|].
  split; [done|]. simpl.
  apply index_lt_length in Hk.
  rewrite length_insort, get_dates_site_surveyed_site_surveys,
    length_fmap in Hk. lia.
Qed.

Lemma site_surveys_earliest (reg reg' : Registry) (s : string)
    (d : Z) (sp : list Species) :
  Forall (λ o, d < date o) (site_surveys s reg) →
  Survey_init reg s d sp = Some reg' →
  site_surveys s reg' =
  (set_phen_num (λ n, n + 1) <$> site_surveys s reg)
  ++ [ {| site := s; date := d; species := sp; phen_num := 1 |} ].
Proof.
  intros Hall Hinit.
  pose proof (site_surveys_Survey_init reg reg' s s d sp Hinit) as Hstep.
  rewrite decide_True in Hstep by done.
  destruct Hstep as (k & Hk & ->).
  rewrite insort_all_greater in Hk by (by apply Forall_fmap).
  simpl in Hk. rewrite decide_True in Hk by done. injection Hk as <-.
  f_equal. apply list_fmap_ext. intros i o Ho.
  apply shift_later. rewrite Forall_lookup in Hall. by eapply Hall.
Qed.

(** X5: when the new date is before the date of every registered survey of
    the site, in whatever order those were registered, the new survey is
    numbered 1 and each of them goes up by one. *)
Theorem earliest_survey_numbered_one (reg reg' : Registry) (s : string)
    (d : Z) (sp : list Species) :
  Forall (λ o, d < date o) (site_surveys s reg) →
  Survey_init reg s d sp = Some reg' →
  site_surveys s reg' =
  (set_phen_num (λ n, n + 1) <$> site_surveys s reg)
  ++ [ {| site := s; date := d; species := sp; phen_num := 1 |} ].
Proof. apply site_surveys_earliest. Qed.

Lemma earliest_survey_numbered_one_witness :
  ∃ reg',
    Survey_init site_B_then_A "A" 3 [] = Some reg'
    ∧ site_surveys "A" reg' =
      [ {| site := "A"; date := 9; species := []; phen_num := 2 |};
        {| site := "A"; date := 3; species := []; phen_num := 1 |} ].
Proof.
  destruct (Survey_init_total site_B_then_A "A" 3 []) as [reg' Hinit].
  exists reg'. split; [exact Hinit|].
  apply (earliest_survey_numbered_one site_B_then_A reg' "A" 3 []);
    [|exact Hinit].
  vm_compute. repeat constructor.
Defined.

Lemma filter_all {A} (P : A → Prop) `{!∀ x, Decision (P x)} (l : list A) :
  Forall P l → filter P l = l.
Proof.
  induction 1 as [|x l Hx Hl IH]; [done|].
  by rewrite filter_cons, decide_True, IH.
Qed.

Lemma StronglySorted_lt_le (l : list Z) :
  StronglySorted Z.lt l → StronglySorted Z.le l.
Proof.
  induction 1 as [|x l Hs IH Hall]; constructor; [done|].
  eapply Forall_impl; [exact Hall|]. simpl. intros. lia.
Qed.

(** A date after all the dates of the site, these in ascending order, is
    found at the end: the new survey gets the next number and each
    registered one goes down by one. *)
Lemma site_surveys_latest (reg reg' : Registry) (s : string)
    (d : Z) (sp : list Species) :
  StronglySorted Z.le (date <$> site_surveys s reg) →
  Forall (λ o, date o < d) (site_surveys s reg) →
  Survey_init reg s d sp = Some reg' →
  site_surveys s reg' =
  (set_phen_num (λ n, n - 1) <$> site_surveys s reg)
  ++ [ {| site := s; date := d; species := sp;
          phen_num := Z.of_nat (length (site_surveys s reg)) + 1 |} ].
Proof.
  intros Hs Hall Hinit.
  pose proof (site_surveys_Survey_init reg reg' s s d sp Hinit) as Hstep.
  rewrite decide_True in Hstep by done.
  destruct Hstep as (k & Hk & ->).
  rewrite index_insort_sorted in Hk by done.
  rewrite filter_all, length_fmap in Hk by (by apply Forall_fmap).
  injection Hk as <-.
  f_equal. apply list_fmap_ext. intros i o Ho.
  apply shift_earlier. rewrite Forall_lookup in Hall. by eapply Hall.
Qed.

(** ** Ingestion and the registry *)

Lemma ingest_cons (acc acc' : Ingested) (sheet : Sheet) (wb : list Sheet) :
  ingest acc (sheet :: wb) = Some acc' →
  ∃ reg1,
    Survey_init (surveys acc) (get_site_name sheet) (get_survey_date sheet)
      (get_survey_species sheet) = Some reg1
    ∧ ingest {| all_species := all_species acc ++ get_survey_species sheet;
                all_sites := all_sites acc ++ [get_site_name sheet];
                surveys := reg1 |} wb = Some acc'.
Proof.
  simpl. unfold ingest_sheet.
  destruct (Survey_init _ _ _ _) as [reg1|]; [|done].
  simpl. intros Hrest. by exists reg1.
Qed.

Lemma ingest_all_surveys (wb : list Sheet) (acc acc' : Ingested) :
  ingest acc wb = Some acc' →
  unnumbered <$> all_surveys (surveys acc') =
  (unnumbered <$> all_surveys (surveys acc)) ++ (sheet_survey <$> wb).
Proof.
  revert acc. induction wb as [|sheet wb IH]; intros acc Hi.
  - injection Hi as <-. by rewrite app_nil_r.
  - apply ingest_cons in Hi as (reg1 & Hinit & Hrest).
    rewrite (IH _ Hrest). simpl.
    destruct (Survey_init_all_surveys _ _ _ _ _ Hinit) as (k & _ & ->).
    rewrite fmap_app, <- list_fmap_compose, <- (assoc_L (++)). simpl.
    f_equal. apply list_fmap_ext. intros i o _. apply renumber_fields.
Qed.

(** X2: ingestion registers one survey per sheet, in workbook order, and
    whatever the later registrations do to the numbers, the site, date and
    species of every registered survey stay those read from its sheet. *)
Theorem ingest_registers_sheets_in_order (wb : list Sheet) :
  ∃ acc, ingest no_sheets wb = Some acc
         ∧ unnumbered <$> all_surveys (surveys acc) = sheet_survey <$> wb.
Proof.
  destruct (ingest_spec wb no_sheets) as (acc & Hi & _).
  exists acc. split; [done|]. by rewrite (ingest_all_surveys _ _ _ Hi).
Qed.

Lemma StronglySorted_le_NoDup_lt (l : list Z) :
  StronglySorted Z.le l → NoDup l → StronglySorted Z.lt l.
Proof.
  induction 1 as [|x l Hs IH Hall]; intros Hnd; [constructor|].
  apply NoDup_cons in Hnd as [Hni Hnd]. constructor; [by apply IH|].
  rewrite Forall_forall in Hall. apply Forall_forall. intros y Hy.
  pose proof (Hall y Hy). assert (x ≠ y) by (by intros ->). lia.
Qed.

Lemma StronglySorted_lt_NoDup (l : list Z) :
  StronglySorted Z.lt l → NoDup l.
Proof.
  induction 1 as [|x l Hs IH Hall]; constructor; [|done].
  intros Hin. rewrite Forall_forall in Hall. specialize (Hall x Hin). lia.
Qed.

(** One construction keeps [survey_dates] strictly ascending and adds the
    new date to it. *)
Lemma Survey_init_survey_dates_sorted (reg reg' : Registry) (s : string)
    (d : Z) (sp : list Species) :
  Survey_init reg s d sp = Some reg' →
  StronglySorted Z.lt (survey_dates reg) →
  StronglySorted Z.lt (survey_dates reg')
  ∧ ∀ y, y ∈ survey_dates reg' ↔ y = d ∨ y ∈ survey_dates reg.
Proof.
  intros Hinit Hs. rewrite (Survey_init_survey_dates _ _ _ _ _ Hinit).
  destruct (decide (d ∈ survey_dates reg)) as [Hin|Hni].
  - split; [done|]. intros y. split; [by right|]. by intros [->|?].
  - split; [|intros y; apply elem_of_insort].
    apply StronglySorted_le_NoDup_lt.
    + by apply insort_sorted, StronglySorted_lt_le.
    + rewrite insort_Permutation. apply NoDup_cons. split; [done|].
      by apply StronglySorted_lt_NoDup.
Qed.

Lemma ingest_survey_dates (wb : list Sheet) (acc acc' : Ingested) :
  ingest acc wb = Some acc' →
  StronglySorted Z.lt (survey_dates (surveys acc)) →
  StronglySorted Z.lt (survey_dates (surveys acc'))
  ∧ ∀ y, y ∈ survey_dates (surveys acc') ↔
         y ∈ survey_dates (surveys acc) ∨ y ∈ get_survey_date <$> wb.
Proof.
  revert acc. induction wb as [|sheet wb IH]; intros acc Hi Hs.
  - injection Hi as <-. split; [done|]. intros y.
    rewrite fmap_nil, elem_of_nil. tauto.
  - apply ingest_cons in Hi as (reg1 & Hinit & Hrest).
    destruct (Survey_init_survey_dates_sorted _ _ _ _ _ Hinit Hs)
      as [Hs1 Hin1].
    destruct (IH _ Hrest Hs1) as [Hs' Hin'].
    split; [done|]. intros y. rewrite Hin'. cbn [surveys].
    rewrite Hin1, fmap_cons, elem_of_cons. tauto.
Qed.

(** X1: after ingestion [Survey.survey_dates] is strictly ascending, so
    free of duplicates, and holds exactly the dates of the sheets. *)
Theorem survey_dates_sorted_distinct (wb : list Sheet) :
  ∃ acc, ingest no_sheets wb = Some acc
         ∧ StronglySorted Z.lt (survey_dates (surveys acc))
         ∧ ∀ y, y ∈ survey_dates (surveys acc) ↔ y ∈ get_survey_date <$> wb.
Proof.
  destruct (ingest_spec wb no_sheets) as (acc & Hi & _).
  exists acc. split; [done|].
  destruct (ingest_survey_dates wb no_sheets acc Hi) as [Hs Hin];
    [constructor|].
  split; [done|]. intros y. rewrite Hin. simpl. rewrite elem_of_nil. tauto.
Qed.

Lemma Species_init_not_None (name : string) (d1 d2 u : value) :
  dnf (Species_init name d1 d2 u) ≠ VNone
  ∧ df (Species_init name d1 d2 u) ≠ VNone
  ∧ fu (Species_init name d1 d2 u) ≠ VNone.
Proof. simpl. repeat split; case_decide; congruence. Qed.

Lemma get_survey_species_not_None (sheet : Sheet) (sp : Species) :
  sp ∈ get_survey_species sheet →
  dnf sp ≠ VNone ∧ df sp ≠ VNone ∧ fu sp ≠ VNone.
Proof.
  unfold get_survey_species. intros Hin.
  apply list_elem_of_fmap in Hin as ([[[name d1] d2] u] & -> & _).
  apply Species_init_not_None.
Qed.

Lemma ingest_species_not_None (wb : list Sheet) (acc : Ingested)
    (sv : Survey) (sp : Species) :
  ingest no_sheets wb = Some acc →
  sv ∈ all_surveys (surveys acc) → sp ∈ species sv →
  dnf sp ≠ VNone ∧ df sp ≠ VNone ∧ fu sp ≠ VNone.
Proof.
  intros Hi Hsv Hsp.
  pose proof (ingest_all_surveys _ _ _ Hi) as Hall. simpl in Hall.
  assert (unnumbered sv ∈ sheet_survey <$> wb) as Hin.
  { rewrite <- Hall. apply list_elem_of_fmap. eauto. }
  apply list_elem_of_fmap in Hin as (sheet & Heq & _).
  unfold unnumbered, sheet_survey in Heq. injection Heq as _ _ Hspecies.
  rewrite Hspecies in Hsp. by eapply get_survey_species_not_None.
Qed.

(** ** The numbering of one site *)

Lemma site_sheets_cons (s : string) (sheet : Sheet) (wb : list Sheet) :
  site_sheets s (sheet :: wb) =
  if decide (get_site_name sheet = s) then sheet :: site_sheets s wb
  else site_sheets s wb.
Proof. unfold site_sheets. rewrite filter_cons. by case_decide. Qed.

Lemma Forall_site_surveys (s : string) (reg : Registry) :
  Forall (λ o, site o = s) (site_surveys s reg).
Proof.
  apply Forall_forall. intros o Ho.
  by apply list_elem_of_filter in Ho as [? _].
Qed.

(** Ingesting only the sheets of a site registers the surveys that the
    whole workbook registers for the site. *)
Lemma ingest_site_sheets (s : string) (wb : list Sheet)
    (acc acc' acc_s : Ingested) :
  ingest acc wb = Some acc' →
  all_surveys (surveys acc_s) = site_surveys s (surveys acc) →
  ∃ acc_s', ingest acc_s (site_sheets s wb) = Some acc_s'
            ∧ all_surveys (surveys acc_s') = site_surveys s (surveys acc').
Proof.
  revert acc acc_s. induction wb as [|sheet wb IH]; intros acc acc_s Hi Heq.
  - injection Hi as <-. by exists acc_s.
  - apply ingest_cons in Hi as (reg1 & Hinit & Hrest).
    pose proof (site_surveys_Survey_init _ _ s _ _ _ Hinit) as Hstep.
    rewrite site_sheets_cons.
    destruct (decide (get_site_name sheet = s)) as [Hs|Hs].
    + destruct Hstep as (k & Hk & Hsite). rewrite Hs in Hinit.
      destruct (Survey_init_total (surveys acc_s) s (get_survey_date sheet)
                  (get_survey_species sheet)) as [reg_s Hinit_s].
      assert (site_surveys s (surveys acc_s) = all_surveys (surveys acc_s))
        as Hall_s.
      { unfold site_surveys. apply filter_all. rewrite Heq.
        apply Forall_site_surveys. }
      pose proof (site_surveys_Survey_init _ _ s _ _ _ Hinit_s) as Hstep_s.
      rewrite decide_True in Hstep_s by done.
      destruct Hstep_s as (k_s & Hk_s & Hsite_s).
      rewrite Hall_s, Heq in Hk_s, Hsite_s.
      rewrite Hk in Hk_s. injection Hk_s as <-.
      assert (all_surveys reg_s = site_surveys s reg1) as Heq1.
      { rewrite Hsite, <- Hsite_s. symmetry. unfold site_surveys.
        apply filter_all.
        destruct (Survey_init_all_surveys _ _ _ _ _ Hinit_s)
          as (k' & _ & ->).
        apply Forall_app. split.
        - apply Forall_fmap, Forall_forall. intros o Ho. simpl.
          rewrite renumber_site. rewrite Heq in Ho.
          by apply list_elem_of_filter in Ho as [? _].
        - by constructor. }
      destruct (IH _ {| all_species := all_species acc_s
                                       ++ get_survey_species sheet;
                        all_sites := all_sites acc_s ++ [get_site_name sheet];
                        surveys := reg_s |} Hrest Heq1)
        as (acc_s' & Hi_s & Hfin).
      exists acc_s'. split; [|done].
      simpl. unfold ingest_sheet. rewrite Hs, Hinit_s. simpl.
      by rewrite Hs in Hi_s.
    + apply (IH _ acc_s Hrest). simpl. by rewrite Hstep.
Qed.

(** X8: the surveys registered for a site, numbers included, are those
    obtained by ingesting the sheets of that site alone: sheets of other
    sites, wherever they stand in the workbook, have no effect on them. *)
Theorem numbering_independent_of_other_sites (s : string) (wb : list Sheet) :
  ∃ acc acc_s,
    ingest no_sheets wb = Some acc
    ∧ ingest no_sheets (site_sheets s wb) = Some acc_s
    ∧ site_surveys s (surveys acc) = all_surveys (surveys acc_s).
Proof.
  destruct (ingest_spec wb no_sheets) as (acc & Hi & _).
  destruct (ingest_site_sheets s wb no_sheets acc no_sheets Hi eq_refl)
    as (acc_s & Hi_s & Heq).
  by exists acc, acc_s.
Qed.

Lemma date_rank_fmap (f : Survey → Survey) (l : list Survey) (t : Survey) :
  (∀ o, date (f o) = date o) →
  length (filter (λ o', date o' < date t) (f <$> l))
  = length (filter (λ o', date o' < date t) l).
Proof.
  intros Hf. rewrite filter_fmap_comm by (intros o; by rewrite Hf).
  apply length_fmap.
Qed.

(** The sheets of a site in strictly descending date order: every survey of
    the site holds its rank by date. *)
Lemma ingest_descending (s : string) (wb : list Sheet)
    (acc acc' : Ingested) :
  ingest acc wb = Some acc' →
  StronglySorted (λ x y, y < x)
    ((date <$> site_surveys s (surveys acc))
     ++ (get_survey_date <$> site_sheets s wb)) →
  Forall (λ o, phen_num o = date_rank (site_surveys s (surveys acc)) o)
         (site_surveys s (surveys acc)) →
  Forall (λ o, phen_num o = date_rank (site_surveys s (surveys acc')) o)
         (site_surveys s (surveys acc')).
Proof.
  revert acc. induction wb as [|sheet wb IH]; intros acc Hi Hsorted Hrank.
  - by injection Hi as <-.
  - apply ingest_cons in Hi as (reg1 & Hinit & Hrest).
    rewrite site_sheets_cons in Hsorted.
    destruct (decide (get_site_name sheet = s)) as [Hs|Hs].
    + rewrite Hs in Hinit. rewrite fmap_cons in Hsorted.
      assert (Forall (λ o, get_survey_date sheet < date o)
                (site_surveys s (surveys acc))) as Hall.
      { apply Forall_forall. intros o Ho.
        apply (StronglySorted_app_1_elem_of _ _ _ (date o)
                 (get_survey_date sheet)) in Hsorted;
          [done| |by left].
        apply list_elem_of_fmap. eauto. }
      pose proof (site_surveys_earliest _ _ _ _ _ Hall Hinit) as Hsite.
      apply (IH _ Hrest); cbn [surveys]; rewrite Hsite.
      * rewrite fmap_app, <- list_fmap_compose, <- (assoc_L (++)).
        exact Hsorted.
      * apply Forall_app. split.
        -- apply Forall_fmap, Forall_forall. intros o Ho. simpl.
           rewrite Forall_forall in Hrank, Hall.
           rewrite (Hrank o Ho). unfold date_rank.
           rewrite filter_app, length_app. cbn [date set_phen_num].
           rewrite (date_rank_fmap _ _ o) by done.
           rewrite filter_cons, decide_True by (simpl; by apply Hall).
           simpl. lia.
        -- constructor; [|done]. simpl. unfold date_rank.
           rewrite filter_app, length_app. cbn [date].
           rewrite filter_none, filter_none; [done|..].
           ++ repeat constructor. simpl. lia.
           ++ apply Forall_fmap. eapply Forall_impl; [exact Hall|].
              simpl. intros. lia.
    + pose proof (site_surveys_Survey_init _ _ s _ _ _ Hinit) as Hstep.
      rewrite decide_False in Hstep by done.
      apply (IH _ Hrest); cbn [surveys]; by rewrite Hstep.
Qed.

(** X6: when the sheets of a site stand in the workbook in strictly
    descending date order (latest first), every survey of the site ends with
    its rank by date: one more than the count of the site's surveys dated
    before it. *)
Theorem descending_sheets_numbered_by_rank (s : string) (wb : list Sheet)
    (acc : Ingested) :
  StronglySorted (λ x y, y < x) (get_survey_date <$> site_sheets s wb) →
  ingest no_sheets wb = Some acc →
  Forall (λ o, phen_num o = date_rank (site_surveys s (surveys acc)) o)
         (site_surveys s (surveys acc)).
Proof.
  intros Hsorted Hi.
  by apply (ingest_descending s wb no_sheets acc Hi).
Qed.

Lemma descending_sheets_numbered_by_rank_witness :
  Forall (λ o, phen_num o = date_rank (site_surveys "B" (surveys example_acc)) o)
         (site_surveys "B" (surveys example_acc)).
Proof.
  apply (descending_sheets_numbered_by_rank "B" example_wb example_acc).
  - vm_compute. repeat constructor.
  - vm_compute. reflexivity.
Defined.

(** The sheets of a site in strictly ascending date order: the survey of
    rank [r] among the [N] of the site holds [2 r - N]. *)
Lemma ingest_ascending (s : string) (wb : list Sheet)
    (acc acc' : Ingested) :
  ingest acc wb = Some acc' →
  StronglySorted Z.lt
    ((date <$> site_surveys s (surveys acc))
     ++ (get_survey_date <$> site_sheets s wb)) →
  Forall (λ o, phen_num o =
               2 * date_rank (site_surveys s (surveys acc)) o
               - Z.of_nat (length (site_surveys s (surveys acc))))
         (site_surveys s (surveys acc)) →
  Forall (λ o, phen_num o =
               2 * date_rank (site_surveys s (surveys acc')) o
               - Z.of_nat (length (site_surveys s (surveys acc'))))
         (site_surveys s (surveys acc')).
Proof.
  revert acc. induction wb as [|sheet wb IH]; intros acc Hi Hsorted Hrank.
  - by injection Hi as <-.
  - apply ingest_cons in Hi as (reg1 & Hinit & Hrest).
    rewrite site_sheets_cons in Hsorted.
    destruct (decide (get_site_name sheet = s)) as [Hs|Hs].
    + rewrite Hs in Hinit. rewrite fmap_cons in Hsorted.
      assert (Forall (λ o, date o < get_survey_date sheet)
                (site_surveys s (surveys acc))) as Hall.
      { apply Forall_forall. intros o Ho.
        apply (StronglySorted_app_1_elem_of _ _ _ (date o)
                 (get_survey_date sheet)) in Hsorted;
          [done| |by left].
        apply list_elem_of_fmap. eauto. }
      assert (StronglySorted Z.le (date <$> site_surveys s (surveys acc)))
        as Hle.
      { apply StronglySorted_lt_le.
        by apply StronglySorted_app_1_l in Hsorted. }
      pose proof (site_surveys_latest _ _ _ _ _ Hle Hall Hinit) as Hsite.
      apply (IH _ Hrest); cbn [surveys]; rewrite Hsite.
      * rewrite fmap_app, <- list_fmap_compose, <- (assoc_L (++)).
        exact Hsorted.
      * rewrite length_app, length_fmap. cbn [length].
        apply Forall_app. split.
        -- apply Forall_fmap, Forall_forall. intros o Ho. simpl.
           rewrite Forall_forall in Hrank, Hall.
           rewrite (Hrank o Ho). unfold date_rank.
           rewrite filter_app, length_app. cbn [date set_phen_num].
           rewrite (date_rank_fmap _ _ o) by done.
           rewrite filter_cons, decide_False
             by (simpl; specialize (Hall o Ho); lia).
           simpl. lia.
        -- constructor; [|done]. simpl. unfold date_rank.
           rewrite filter_app, length_app. cbn [date].
           rewrite (filter_none _ [_]) by (repeat constructor; simpl; lia).
           rewrite filter_all, length_fmap.
           ++ simpl. lia.
           ++ apply Forall_fmap. eapply Forall_impl; [exact Hall|].
              simpl. intros. lia.
    + pose proof (site_surveys_Survey_init _ _ s _ _ _ Hinit) as Hstep.
      rewrite decide_False in Hstep by done.
      apply (IH _ Hrest); cbn [surveys]; by rewrite Hstep.
Qed.

(** X7: when the sheets of a site stand in the workbook in strictly
    ascending date order (earliest first), the survey of rank [r] by date
    among the [N] surveys of the site ends with the number [2 r - N]; only
    the latest survey holds its rank. *)
Theorem ascending_sheets_numbering (s : string) (wb : list Sheet)
    (acc : Ingested) :
  StronglySorted Z.lt (get_survey_date <$> site_sheets s wb) →
  ingest no_sheets wb = Some acc →
  Forall (λ o, phen_num o =
               2 * date_rank (site_surveys s (surveys acc)) o
               - Z.of_nat (length (site_surveys s (surveys acc))))
         (site_surveys s (surveys acc)).
Proof.
  intros Hsorted Hi.
  by apply (ingest_ascending s wb no_sheets acc Hi).
Qed.

Lemma ascending_sheets_numbering_witness :
  phen_num <$> site_surveys "A" (surveys chronological_acc) = [-1; 1; 3]
  ∧ Forall (λ o, phen_num o =
                 2 * date_rank (site_surveys "A" (surveys chronological_acc)) o
                 - 3)
           (site_surveys "A" (surveys chronological_acc)).
Proof.
  split; [vm_compute; reflexivity|].
  apply (ascending_sheets_numbering "A" chronological_wb chronological_acc).
  - vm_compute. repeat constructor.
  - vm_compute. reflexivity.
Defined.

(** * Further properties of the output path *)

Lemma split_on_not_nil (c : ascii) (s : string) : split_on c s ≠ [].
Proof.
  destruct s as [|c' s]; simpl; [done|].
  case_decide; [done|]. by destruct (split_on c s).
Qed.

Lemma split_on_pieces_free (c : ascii) (s : string) :
  Forall (free_of c) (split_on c s).
Proof.
  induction s as [|c' s IH]; simpl; [by repeat constructor|].
  destruct (decide (c' = c)); [by constructor|].
  destruct (split_on c s) as [|piece pieces]; [by repeat constructor|].
  apply Forall_cons in IH as [Hp Hps]. by constructor.
Qed.

(** Joining the pieces with the separator gives the string back. *)
Lemma split_on_join (c : ascii) (s : string) :
  String.concat (String c EmptyString) (split_on c s) = s.
Proof.
  induction s as [|c' s IH]; [done|]. simpl.
  pose proof (split_on_not_nil c s) as Hne.
  destruct (decide (c' = c)) as [->|Hc].
  - destruct (split_on c s) as [|piece pieces]; [done|].
    simpl in *. by rewrite IH.
  - destruct (split_on c s) as [|piece pieces]; [done|].
    destruct pieces as [|piece' pieces]; simpl in *; by rewrite <- IH.
Qed.

(** X9: the output path is derived exactly for the paths with one dot, and
    then the suffix goes between the part before the dot and the dot; on
    every other path, without a dot or with several, the unpacking raises. *)
Theorem summarized_path_iff (data out : string) :
  summarized_path data = Some out ↔
  ∃ stem ext,
    free_of "." stem ∧ free_of "." ext
    ∧ data = stem +:+ "." +:+ ext
    ∧ out = stem +:+ "_summarized" +:+ "." +:+ ext.
Proof.
  split.
  - unfold summarized_path. intros Hout.
    pose proof (split_on_pieces_free "." data) as Hfree.
    pose proof (split_on_join "." data) as Hjoin.
    destruct (split_on "." data) as [|stem [|ext [|? ?]]]; try done.
    injection Hout as <-. exists stem, ext.
    apply Forall_cons in Hfree as [Hstem Hfree].
    apply Forall_cons in Hfree as [Hext _].
    by rewrite <- Hjoin.
  - intros (stem & ext & Hstem & Hext & -> & ->).
    by apply summarized_path_one_dot.
Qed.

Lemma summarized_path_iff_witness :
  summarized_path "data/survey.xlsx" = Some "data/survey_summarized.xlsx"%string.
Proof.
  apply (summarized_path_iff "data/survey.xlsx" "data/survey_summarized.xlsx").
  exists "data/survey"%string, "xlsx"%string.
  repeat split; vm_compute; try discriminate; reflexivity.
Defined.

(** * Further properties of the summary sheet *)




(** X11: the data fill, run on any sheet, leaves alone the first three
    columns, the header row, the rows below the body and the columns to the
    right of the species columns. *)
Theorem write_data_to_rows_frame (w : World) (num_sites : nat)
    (species_list : list string) (r k : nat) :
  (k < 4 ∨ r < 2
   ∨ 2 + num_sites * NUM_PHENOLOGIES * length VARIABLE_LIST ≤ r
   ∨ 4 + length species_list ≤ k)%nat →
  sum_ws (write_data_to_rows w get_all_surveys num_sites species_list)
    !! (r, k)
  = sum_ws w !! (r, k).
Proof.
  intros Hout.
  destruct (write_data_to_rows_spec w num_sites species_list) as [_ ->].
  destruct Hout as [Hk|[Hr|[Hr|Hk]]].
  - by apply filled_left.
  - apply filled_outside. lia.
  - apply filled_outside. lia.
  - unfold filled. by rewrite lookup_ge_None_2 by lia.
Qed.

Lemma write_data_to_rows_frame_witness :
  sum_ws (write_data_to_rows example_world get_all_surveys 2
            ["grass"; "oak"]%string) !! (3, 2)%nat
  = sum_ws example_world !! (3, 2)%nat.
Proof.
  apply (write_data_to_rows_frame example_world 2 ["grass"; "oak"]%string 3 2).
  left. lia.
Defined.

Lemma phenology_axis_values (n : nat) (K : Z) :
  K ∈ phenology_axis n → K = 1 ∨ K = 2.
Proof.
  rewrite phenology_axis_blocks. unfold list_mul.
  rewrite list_elem_of_In, in_concat. intros (l & Hl & HK).
  apply list_elem_of_In, elem_of_replicate in Hl as [-> _].
  apply list_elem_of_In, elem_of_app in HK as [HK|HK];
    apply elem_of_replicate in HK as [-> _]; auto.
Qed.

(** A body cell in a species column, from the readings of its row and of
    its header. *)
Lemma summary_data_cell (wb : list Sheet) (w : World) (i j : nat)
    (X V Y : string) (K : Z) :
  main wb = Some w →
  (i < length (remove_dups (B2 <$> wb)) * 3 * 2)%nat →
  cell_value (sum_ws w) (1%nat, (4 + j)%nat) = VStr Y →
  cell_value (sum_ws w) ((2 + i)%nat, 1%nat) = VStr X →
  cell_value (sum_ws w) ((2 + i)%nat, 2%nat) = VStr V →
  cell_value (sum_ws w) ((2 + i)%nat, 3%nat) = VInt K →
  V ∈ VARIABLE_LIST
  ∧ (K = 1 ∨ K = 2)
  ∧ (∃ acc, ingest no_sheets wb = Some acc ∧ registry w = surveys acc)
  ∧ cell_value (sum_ws w) ((2 + i)%nat, (4 + j)%nat) =
    default VNone
      (fill_datum (all_surveys (registry w)) (VStr X) (VStr V) (VInt K) Y).
Proof.
  intros Hmain Hi HY HX HV HK.
  destruct (main_spec wb) as (acc & Hing & Hmain' & Hsites & Hspecies).
  rewrite Hmain in Hmain'. injection Hmain' as ->.
  assert (i < length (sorted_set (all_sites acc)) * NUM_PHENOLOGIES
              * length VARIABLE_LIST)%nat as Hi'.
  { rewrite Hsites, length_sorted_set.
    unfold NUM_PHENOLOGIES, VARIABLE_LIST. cbn [length]. lia. }
  assert (sorted_set (id <$> all_species acc) !! j = Some Y) as Hj.
  { unfold cell_value in HY. rewrite summarize_header_cell in HY.
    destruct (sorted_set _ !! j); simpl in HY; congruence. }
  split_and!.
  - pose proof (summarize_axis_cell acc i 2 Hi') as Hc.
    unfold cell_value in HV. rewrite Hc in HV by lia.
    rewrite variables_axis_blocks in HV.
    destruct ((_ ++ _) !! i) as [V'|] eqn:Hl; [|done].
    injection HV as ->. apply list_elem_of_lookup_2 in Hl.
    unfold VARIABLE_LIST.
    rewrite !elem_of_app, !elem_of_replicate in Hl.
    destruct Hl as [[-> _]|[[-> _]|[-> _]]]; repeat constructor.
  - pose proof (summarize_axis_cell acc i 3 Hi') as Hc.
    unfold cell_value in HK. rewrite Hc in HK by lia.
    destruct (phenology_axis _ !! i) as [K'|] eqn:Hl; [|done].
    injection HK as ->. apply list_elem_of_lookup_2 in Hl.
    by eapply phenology_axis_values.
  - exists acc. split; [done|]. apply summarize_registry.
  - unfold cell_value at 1.
    rewrite (summarize_data_cell acc i j Y Hi' Hj).
    by rewrite HX, HV, HK, summarize_registry.
Qed.

(** X12: a body cell of a species column that is not blank holds a
    measurement of a species record with the name of the column header, in a
    registered survey of the site of the row whose number is the phenology
    of the row, and that number is 1 or 2: a survey with any other number,
    such as the third survey of a site, reaches no cell. *)
Theorem summary_cell_provenance (wb : list Sheet) (w : World) (i j : nat)
    (X V Y : string) (K : Z) :
  main wb = Some w →
  (i < length (remove_dups (B2 <$> wb)) * 3 * 2)%nat →
  cell_value (sum_ws w) (1%nat, (4 + j)%nat) = VStr Y →
  cell_value (sum_ws w) ((2 + i)%nat, 1%nat) = VStr X →
  cell_value (sum_ws w) ((2 + i)%nat, 2%nat) = VStr V →
  cell_value (sum_ws w) ((2 + i)%nat, 3%nat) = VInt K →
  cell_value (sum_ws w) ((2 + i)%nat, (4 + j)%nat) ≠ VNone →
  ∃ sv sp,
    sv ∈ all_surveys (registry w) ∧ sp ∈ species sv
    ∧ site sv = X ∧ phen_num sv = K ∧ (K = 1 ∨ K = 2) ∧ id sp = Y
    ∧ (cell_value (sum_ws w) ((2 + i)%nat, (4 + j)%nat) = dnf sp
       ∨ cell_value (sum_ws w) ((2 + i)%nat, (4 + j)%nat) = df sp
       ∨ cell_value (sum_ws w) ((2 + i)%nat, (4 + j)%nat) = fu sp).
Proof.
  intros Hmain Hi HY HX HV HK Hcell.
  destruct (summary_data_cell wb w i j X V Y K Hmain Hi HY HX HV HK)
    as (_ & HK12 & _ & Hfill).
  rewrite Hfill in Hcell |- *. rewrite fill_datum_values in Hcell |- *.
  destruct (filter _ (all_surveys (registry w))) as [|sv [|? ?]] eqn:Hsv;
    try done.
  destruct (filter _ (species sv)) as [|sp [|? ?]] eqn:Hsp; try done.
  assert (sv ∈ filter (λ sv, site sv = X ∧ phen_num sv = K)
                 (all_surveys (registry w))) as Hin
    by (rewrite Hsv; left).
  apply list_elem_of_filter in Hin as [[HsX HsK] Hin].
  assert (sp ∈ filter (λ sp, id sp = Y) (species sv)) as Hin'
    by (rewrite Hsp; left).
  apply list_elem_of_filter in Hin' as [HspY Hin'].
  exists sv, sp. split_and!; try done.
  simpl in *. repeat case_decide; auto. done.
Qed.

(** X13: a body cell of a species column is blank exactly when the lookup
    of the survey or the lookup of the species record does not find exactly
    one: a cell that was written is never blank, since the records built by
    ingestion hold no [None]. *)
Theorem summary_cell_blank_iff (wb : list Sheet) (w : World) (i j : nat)
    (X V Y : string) (K : Z) :
  main wb = Some w →
  (i < length (remove_dups (B2 <$> wb)) * 3 * 2)%nat →
  cell_value (sum_ws w) (1%nat, (4 + j)%nat) = VStr Y →
  cell_value (sum_ws w) ((2 + i)%nat, 1%nat) = VStr X →
  cell_value (sum_ws w) ((2 + i)%nat, 2%nat) = VStr V →
  cell_value (sum_ws w) ((2 + i)%nat, 3%nat) = VInt K →
  cell_value (sum_ws w) ((2 + i)%nat, (4 + j)%nat) = VNone ↔
  ¬ ∃ sv sp,
      filter (λ sv, site sv = X ∧ phen_num sv = K) (all_surveys (registry w))
      = [sv]
      ∧ filter (λ sp, id sp = Y) (species sv) = [sp].
Proof.
  intros Hmain Hi HY HX HV HK.
  destruct (summary_data_cell wb w i j X V Y K Hmain Hi HY HX HV HK)
    as (HVin & _ & (acc & Hing & Hreg) & Hfill).
  rewrite Hfill, fill_datum_values.
  destruct (filter _ (all_surveys (registry w))) as [|sv [|? ?]] eqn:Hsv.
  - split; [|done]. by intros _ (? & ? & ? & _).
  - destruct (filter _ (species sv)) as [|sp [|? ?]] eqn:Hsp.
    + split; [|done]. intros _ (sv' & sp' & [= <-] & Hsp').
      by rewrite Hsp in Hsp'.
    + assert (sv ∈ all_surveys (surveys acc)) as Hin.
      { rewrite <- Hreg.
        assert (sv ∈ filter (λ sv, site sv = X ∧ phen_num sv = K)
                       (all_surveys (registry w))) as Hin
          by (rewrite Hsv; left).
        by apply list_elem_of_filter in Hin as [_ ?]. }
      assert (sp ∈ species sv) as Hin'.
      { assert (sp ∈ filter (λ sp, id sp = Y) (species sv)) as Hin'
          by (rewrite Hsp; left).
        by apply list_elem_of_filter in Hin' as [_ ?]. }
      destruct (ingest_species_not_None wb acc sv sp Hing Hin Hin')
        as (Hdnf & Hdf & Hfu).
      split; [|intros Hno; exfalso; apply Hno; eauto].
      simpl. intros Hnone. exfalso.
      unfold VARIABLE_LIST in HVin.
      apply elem_of_cons in HVin as [->|HVin];
        [|apply elem_of_cons in HVin as [->|HVin];
          [|apply list_elem_of_singleton in HVin as ->]];
        simpl in Hnone; congruence.
    + split; [|done]. intros _ (sv' & sp' & [= <-] & Hsp').
      by rewrite Hsp in Hsp'.
  - split; [|done]. by intros _ (? & ? & ? & _).
Qed.

Lemma summary_cell_provenance_witness :
  ∃ sv sp,
    sv ∈ all_surveys (registry example_world) ∧ sp ∈ species sv
    ∧ site sv = "B"%string ∧ phen_num sv = 1 ∧ (1 = 1 ∨ 1 = 2)
    ∧ id sp = "grass"%string
    ∧ (cell_value (sum_ws example_world) (3, 4)%nat = dnf sp
       ∨ cell_value (sum_ws example_world) (3, 4)%nat = df sp
       ∨ cell_value (sum_ws example_world) (3, 4)%nat = fu sp).
Proof.
  apply (summary_cell_provenance example_wb example_world 1 0
           "B" "DF" "grass" 1);
    try (vm_compute; reflexivity).
  - vm_compute. lia.
  - vm_compute. discriminate.
Defined.

Lemma summary_cell_blank_iff_witness :
  ¬ ∃ sv sp,
      filter (λ sv, site sv = "A"%string ∧ phen_num sv = 1)
        (all_surveys (registry example_world)) = [sv]
      ∧ filter (λ sp, id sp = "grass"%string) (species sv) = [sp].
Proof.
  apply (summary_cell_blank_iff example_wb example_world 0 0
           "A" "DF" "grass" 1);
    try (vm_compute; reflexivity).
  vm_compute. lia.
Defined.

(** X14: every species record of every survey registered by ingestion holds
    a value in each of its three measurements, never [None]. *)
Theorem registered_species_hold_values (wb : list Sheet) (acc : Ingested)
    (sv : Survey) (sp : Species) :
  ingest no_sheets wb = Some acc →
  sv ∈ all_surveys (surveys acc) → sp ∈ species sv →
  dnf sp ≠ VNone ∧ df sp ≠ VNone ∧ fu sp ≠ VNone.
Proof. apply ingest_species_not_None. Qed.

Lemma registered_species_hold_values_witness :
  dnf {| id := "oak"; dnf := VInt 1; df := VInt 0; fu := VInt 0 |} ≠ VNone
  ∧ df {| id := "oak"; dnf := VInt 1; df := VInt 0; fu := VInt 0 |} ≠ VNone
  ∧ fu {| id := "oak"; dnf := VInt 1; df := VInt 0; fu := VInt 0 |} ≠ VNone.
Proof.
  apply (registered_species_hold_values example_wb example_acc
           {| site := "B"; date := day 2020 5 1;
              species :=
                [ {| id := "grass"; dnf := VInt 0; df := VInt 3;
                     fu := VInt 4 |};
                  {| id := "oak"; dnf := VInt 1; df := VInt 0;
                     fu := VInt 0 |} ];
              phen_num := 2 |}).
  - vm_compute. reflexivity.
  - vm_compute. repeat constructor.
  - right. left.
Defined.

(** ** The rows of the body against the combinations *)







Lemma survey_dates_sorted_distinct_witness :
  ∃ acc, ingest no_sheets example_wb = Some acc
         ∧ day 2020 7 1 ∈ survey_dates (surveys acc).
Proof.
  destruct (survey_dates_sorted_distinct example_wb) as (acc & Hi & _ & Hin).
  exists acc. split; [exact Hi|].
  apply Hin. vm_compute. repeat constructor.
Defined.
